(** * Rank-biased precision, the data splitter and the score aggregator

    A shallow embedding of [lkdemo/metrics.py], [split-data.py] and
    [compute-metrics.py].

    Numbers.  The Python code computes with IEEE doubles; here every
    score is an exact rational ([Q], compared with [==]).  Rounding,
    overflow and underflow of doubles are outside the embedding.
    Integers (ranks, item and list identifiers, cutoffs) are [Z].

    Tables.  A pandas frame is the list of its rows, in row order; a
    series indexed by a key is an association list. *)

From Stdlib Require Import String Ascii DecimalString.
From Stdlib Require Import ZArith QArith Qpower List Bool Lia Lqa Sorted.
Import ListNotations.

Local Open Scope Q_scope.

(* ================================================================== *)
(** * lkdemo/metrics.py *)
(* ================================================================== *)

Module Metrics.

(** [PATIENCE = 0.8] *)
Definition PATIENCE : Q := 8 # 10.

(** [discount(ranks, patience) = patience ** ranks], at one rank.  On a
    series the Python operator works element by element: [discount_s]. *)
Definition discount (ranks : Z) (patience : Q) : Q := patience ^ ranks.

Definition discount_s (ranks : list Z) (patience : Q) : list Q :=
  map (fun r => discount r patience) ranks.

(** [np.sum] of a one-dimensional array: accumulation from 0. *)
Definition np_sum (xs : list Q) : Q := fold_left Qplus xs 0.

(** [np.arange(lo, hi)]: the integers [lo, lo+1, ..., hi-1]. *)
Definition arange (lo hi : Z) : list Z :=
  map (fun i => (lo + Z.of_nat i)%Z) (seq 0 (Z.to_nat (hi - lo))).

(** [rbp_max(ngood, patience)] *)
Definition rbp_max (ngood : Z) (patience : Q) : Q :=
  let max := np_sum (map (fun r => patience ^ r) (arange 1 (ngood + 1))) in
  max * (1 - patience).

(** One row of a single list's recommendation frame: the columns the
    metric reads. *)
Record rec_row : Type := mk_rec { item : Z; rank : Z }.

(** [l.iloc[:k]] with Python's slice rule: a negative [k] counts from
    the end. *)
Definition iloc_to {A : Type} (k : Z) (l : list A) : list A :=
  if (0 <=? k)%Z then firstn (Z.to_nat k) l
  else firstn (length l - Z.to_nat (- k)) l.

(** [s.isin(index)] at one element. *)
Definition isin (x : Z) (index : list Z) : bool := existsb (Z.eqb x) index.

(** [s[mask]]: boolean indexing of a series by an aligned mask. *)
Definition mask_select {A : Type} (s : list A) (mask : list bool) : list A :=
  map fst (filter snd (combine s mask)).

(** [if k is not None: recs = recs.iloc[:k]] *)
Definition apply_cutoff {A : Type} (k : option Z) (recs : list A) : list A :=
  match k with
  | Some k => iloc_to k recs
  | None => recs
  end.

(** [rbp(recs, truth, k, patience)].  [truth] is the truth frame of the
    user, given by its index (the item of each row); [None] is Python's
    [None]. *)
Definition rbp (recs : list rec_row) (truth : list Z) (k : option Z)
    (patience : Q) : option Q :=
  let recs := apply_cutoff k recs in
  let nrel := length truth in
  if Nat.eqb nrel 0 then None
  else
    let good := map (fun r => isin (item r) truth) recs in
    let ranks := mask_select (map rank recs) good in
    let disc := discount_s ranks patience in
    Some (np_sum disc * (1 - patience)).

(** ** The score the specification describes

    Truncate to the first [k] entries, keep the entries whose item is in
    the truth set, add [patience^rank] over them, scale by
    [1 - patience]. *)

Fixpoint spec_power (patience : Q) (n : nat) : Q :=
  match n with
  | O => 1
  | S n' => patience * spec_power patience n'
  end.

Fixpoint spec_hit_sum (recs : list rec_row) (truth : list Z) (patience : Q) : Q :=
  match recs with
  | [] => 0
  | r :: rs =>
      if in_dec Z.eq_dec (item r) truth
      then patience ^ rank r + spec_hit_sum rs truth patience
      else spec_hit_sum rs truth patience
  end.

Fixpoint spec_truncate (k : nat) (recs : list rec_row) : list rec_row :=
  match recs with
  | [] => []
  | r :: rs =>
      match k with
      | O => []
      | S k' => r :: spec_truncate k' rs
      end
  end.

Definition spec_rbp (recs : list rec_row) (truth : list Z) (k : option nat)
    (patience : Q) : Q :=
  let kept := match k with Some k => spec_truncate k recs | None => recs end in
  (1 - patience) * spec_hit_sum kept truth patience.

(** A recommendation list as the data model has it: ranks are positive
    and strictly increasing, no item appears twice. *)
Definition well_formed (recs : list rec_row) : Prop :=
  StronglySorted Z.lt (map rank recs) /\
  Forall (fun r => (1 <= rank r)%Z) recs /\
  NoDup (map item recs).

(** The list that recommends exactly the truth items, at ranks 1, 2, ... *)
Definition ideal_list (truth : list Z) : list rec_row :=
  map (fun p => mk_rec (snd p) (fst p))
      (combine (arange 1 (Z.of_nat (length truth) + 1)) truth).

(** Two notions the statements use: the rows of a list that hit the
    truth set, and the ranks [b, b+1, ..., b+m-1]. *)
Definition hits (recs : list rec_row) (truth : list Z) : list rec_row :=
  filter (fun r => isin (item r) truth) recs.

Definition ramp (b : Z) (m : nat) : list Z :=
  map (fun i => (b + Z.of_nat i)%Z) (seq 0 m).

(** ** The bulk implementation

    [_bulk_rbp] receives every list at once: the recommendation frame
    carries the list identifier [LKRecID] and the identifier [LKTruthID]
    of the truth list it is judged against; the truth frame is indexed by
    [(LKTruthID, item)]. *)

Record bulk_row : Type :=
  mk_bulk { LKRecID : Z; LKTruthID : Z; b_item : Z; b_rank : Z }.

(** A row of the truth frame, by its index [(LKTruthID, item)]. *)
Definition truth_row : Type := (Z * Z)%type.

Definition key_matches (r : bulk_row) (t : truth_row) : bool :=
  ((LKTruthID r =? fst t) && (b_item r =? snd t))%Z.

(** [recs.join(truth, on=['LKTruthID', 'item'], how='inner')]: one output
    row per pair of a left row and a truth row with the same key. *)
Definition inner_join (recs : list bulk_row) (truth : list truth_row)
    : list bulk_row :=
  flat_map (fun r => map (fun _ => r) (filter (key_matches r) truth)) recs.

(** A series indexed by [LKRecID], kept sorted by key as [groupby]
    returns it. *)
Definition series : Type := list (Z * Q).

Fixpoint series_add (key : Z) (v : Q) (s : series) : series :=
  match s with
  | [] => [(key, v)]
  | (k', v') :: s' =>
      if (key <? k')%Z then (key, v) :: s
      else if (key =? k')%Z then (k', v' + v) :: s'
      else (k', v') :: series_add key v s'
  end.

(** [frame.groupby(key)[col].sum()] on the rows [(key, col)]. *)
Definition groupby_sum (rows : list (Z * Q)) : series :=
  fold_left (fun acc kv => series_add (fst kv) (snd kv) acc) rows [].

(** [s.get(key)]: the entry of a list in a series, if it has one. *)
Definition series_get (key : Z) (s : series) : option Q :=
  option_map snd (find (fun kv => (fst kv =? key)%Z) s).

(** [_bulk_rbp(recs, truth, k, patience)] *)
Definition _bulk_rbp (recs : list bulk_row) (truth : list truth_row)
    (k : option Z) (patience : Q) : series :=
  let recs :=
    match k with
    | Some k => filter (fun r => (b_rank r <=? k)%Z) recs
    | None => recs
    end in
  let good := inner_join recs truth in
  let good := map (fun r => (r, discount (b_rank r) patience)) good in
  let scores := groupby_sum (map (fun g => (LKRecID (fst g), snd g)) good) in
  map (fun kv => (fst kv, snd kv * (1 - patience))) scores.

(** The slice of one list, and the truth set of one truth identifier, as
    the scalar metric receives them. *)
Definition list_slice (rid : Z) (recs : list bulk_row) : list rec_row :=
  map (fun r => mk_rec (b_item r) (b_rank r))
      (filter (fun r => (LKRecID r =? rid)%Z) recs).

Definition truth_slice (tid : Z) (truth : list truth_row) : list Z :=
  map snd (filter (fun t => (fst t =? tid)%Z) truth).

(** Notions the statements about the bulk form use: sortedness of a
    series by key, the running sum of a group, the values of the rows
    of a group, membership of a row's key in the truth frame, and the
    columns of a row the scalar metric reads. *)
Definition keys_sorted (s : series) : Prop := StronglySorted Z.lt (map fst s).

Definition opt_add (o : option Q) (v : Q) : option Q :=
  Some (match o with Some x => x + v | None => v end).

Definition group_values (key : Z) (rows : list (Z * Q)) : list Q :=
  map snd (filter (fun kv => (fst kv =? key)%Z) rows).

Definition in_truth (truth : list truth_row) (r : bulk_row) : bool :=
  existsb (key_matches r) truth.

Definition to_rec (r : bulk_row) : rec_row := mk_rec (b_item r) (b_rank r).

(** The cutoff step of [_bulk_rbp] on its own, and the number of truth
    rows that carry the key of a recommendation row. *)
Definition bulk_cut (k : option Z) (recs : list bulk_row) : list bulk_row :=
  match k with
  | Some k => filter (fun r => (b_rank r <=? k)%Z) recs
  | None => recs
  end.

Definition multiplicity (truth : list truth_row) (r : bulk_row) : nat :=
  length (filter (key_matches r) truth).

End Metrics.

(** Two lists judged against their own truth sets: list 0 hits at rank
    1; list 1 recommends item 10 while its truth set is {12}. *)
Module MetricsExample.
Import Metrics.

Definition two_lists : list bulk_row :=
  [mk_bulk 0 0 10 1; mk_bulk 0 0 11 2; mk_bulk 1 1 10 1].

Definition two_truths : list truth_row := [(0, 10); (1, 12)]%Z.

End MetricsExample.

(* ================================================================== *)
(** * What the two scripts share *)
(* ================================================================== *)

Module Script.
Local Open Scope string_scope.

(** Python exceptions the scripts can end with.  [SystemExit] is what
    [sys.exit(code)] raises; [OtherError] stands for whatever a library
    call raises. *)
Inductive exn : Type :=
| ValueError
| TypeError
| AttributeError
| StopIteration
| SystemExit (code : Z)
| OtherError (name : string).

Inductive level : Type := INFO | ERROR.

(** [str(i)] and [%d] on an integer. *)
Definition str_of_int (i : Z) : string := NilZero.string_of_int (Z.to_int i).

(** [Path(a) / b] *)
Definition path_join (a b : string) : string := (a ++ "/" ++ b)%string.

(** A script is a computation that emits events of type [E] in order,
    threads a state [S], and ends with a value or an exception; the
    events emitted before an exception stay emitted. *)
Section Monad.
Context {E S : Type}.

Definition M (A : Type) : Type := S -> list E * (exn + A) * S.

Definition ret {A : Type} (a : A) : M A := fun s => ([], inr a, s).

Definition raise {A : Type} (e : exn) : M A := fun s => ([], inl e, s).

Definition emit (e : E) : M unit := fun s => ([e], inr tt, s).

Definition put (s' : S) : M unit := fun _ => ([], inr tt, s').

Definition bind {A B : Type} (m : M A) (f : A -> M B) : M B :=
  fun s =>
    match m s with
    | (t1, inl e, s1) => (t1, inl e, s1)
    | (t1, inr a, s1) =>
        match f a s1 with
        | (t2, r, s2) => ((t1 ++ t2)%list, r, s2)
        end
    end.

(** [for x in xs: body(x)] *)
Fixpoint for_each {A : Type} (xs : list A) (body : A -> M unit) : M unit :=
  match xs with
  | [] => ret tt
  | x :: xs' => bind (body x) (fun _ => for_each xs' body)
  end.

Definition events {A : Type} (r : list E * (exn + A) * S) : list E :=
  fst (fst r).
Definition outcome {A : Type} (r : list E * (exn + A) * S) : exn + A :=
  snd (fst r).
Definition final {A : Type} (r : list E * (exn + A) * S) : S := snd r.
End Monad.

Arguments M : clear implicits.

Declare Scope script_scope.
Delimit Scope script_scope with script.
Notation "x <- m ;; k" := (bind m (fun x => k))
  (at level 61, m at next level, right associativity) : script_scope.
Notation "m ;; k" := (bind m (fun _ => k))
  (at level 61, right associativity) : script_scope.

(** [range(n)] and [enumerate(xs, start)] *)
Definition range (n : Z) : list Z := map Z.of_nat (seq 0 (Z.to_nat n)).

Fixpoint enumerate {A : Type} (start : Z) (xs : list A) : list (Z * A) :=
  match xs with
  | [] => []
  | x :: xs' => (start, x) :: enumerate (start + 1) xs'
  end.

End Script.

(* ================================================================== *)
(** * split-data.py *)
(* ================================================================== *)

Module SplitData.
Import Script.
Local Open Scope string_scope.
Local Open Scope script_scope.

(** The values the option variables of [main] hold: what [docopt] gives
    ([None] or a string) and what [int] makes of it. *)
Inductive pyval : Type :=
| PNone
| PStr (s : string)
| PInt (z : Z).

(** Truth value in a condition. *)
Definition truthy (v : pyval) : bool :=
  match v with
  | PNone => false
  | PStr s => negb (s =? "")%string
  | PInt z => negb (z =? 0)%Z
  end.

Definition is_None (v : pyval) : bool :=
  match v with PNone => true | _ => false end.

(** [%d] and [%s] on a value, for the log. *)
Definition show (v : pyval) : string :=
  match v with
  | PNone => "None"
  | PStr s => s
  | PInt z => str_of_int z
  end.

(** The dictionary [docopt] returns: an option with an argument is
    [None] when absent; [-n] and [-o] have defaults. *)
Record args : Type := mk_args {
  DATASET : string;
  opt_p : option string;
  opt_u : option string;
  opt_o : string;
  opt_n : string;
  opt_R : option string
}.

Definition get (o : option string) : pyval :=
  match o with Some s => PStr s | None => PNone end.

Section Main.
(** What the script takes from outside the repository. *)
Variables dataset ratings frame rng : Type.
(** [int(s)] on a string; [None] is [ValueError]. *)
Variable py_int : string -> option Z.
(** [seedbank.init_file]: the generator state derived from the
    parameter file, the key and the data set name. *)
Variable init_file : string -> string -> string -> rng.
(** [getattr(datasets, name)]; [None] is [AttributeError]. *)
Variable datasets : string -> option dataset.
Variable get_ratings : dataset -> ratings.
(** [xf.sample_users(ratings, partitions, size, SampleN(n))] and
    [xf.partition_users(ratings, partitions, SampleN(n))]: the test
    frames of the splits they yield, drawn from the generator.  The
    Python functions are lazy; here a call yields all its splits at
    once, or fails before the first. *)
Variable sample_users :
  ratings -> pyval -> pyval -> Z -> rng -> (exn + list frame) * rng.
Variable partition_users :
  ratings -> pyval -> Z -> rng -> (exn + list frame) * rng.

Inductive event : Type :=
| Log (lvl : level) (fmt : string) (params : list string)
| Mkdir (path : string)
| ToParquet (path : string) (test : frame).

Definition log (lvl : level) (fmt : string) (params : list string)
    : M event rng unit :=
  emit (Log lvl fmt params).

(** [int(v)] *)
Definition to_int (v : pyval) : M event rng Z :=
  match v with
  | PStr s =>
      match py_int s with
      | Some z => ret z
      | None => raise ValueError
      end
  | PInt z => ret z
  | PNone => raise TypeError
  end.

(** [if v: v = int(v)] *)
Definition int_if_given (v : pyval) : M event rng pyval :=
  if truthy v then (z <- to_int v ;; ret (PInt z)) else ret v.

(** [max(v, 1)] *)
Definition max_1 (v : pyval) : M event rng Z :=
  match v with
  | PInt z => ret (if (1 >? z)%Z then 1%Z else z)
  | _ => raise TypeError
  end.

(** A library call that draws from the generator. *)
Definition draw {A : Type} (f : rng -> (exn + A) * rng) : M event rng A :=
  fun g => match f g with (r, g') => ([], r, g') end.

(** [next(it)] *)
Definition next {A : Type} (it : list A) : M event rng A :=
  match it with
  | [] => raise StopIteration
  | x :: _ => ret x
  end.

Definition to_parquet (path : string) (test : frame) : M event rng unit :=
  emit (ToParquet path test).

(** [f'test-{i}.parquet'] *)
Definition test_name (i : Z) : string :=
  "test-" ++ str_of_int i ++ ".parquet".

Definition main (a : args) : M event rng unit :=
  let dsname := DATASET a in
  partitions <- int_if_given (get (opt_p a)) ;;
  nusers <- int_if_given (get (opt_u a)) ;;
  let output := opt_o a in
  reps <- int_if_given (get (opt_R a)) ;;
  nrates <- to_int (PStr (opt_n a)) ;;
  (if is_None partitions && is_None nusers
   then log ERROR "must specify at least 1 of -p and -u" [] ;;
        raise (SystemExit 2)
   else ret tt) ;;
  put (init_file "params.yaml" "split-data" dsname) ;;
  log INFO "locating data set %s" [dsname] ;;
  data <- match datasets dsname with
          | Some d => ret d
          | None => raise AttributeError
          end ;;
  log INFO "loading ratings" [] ;;
  let ratings := get_ratings data in
  let path := output in
  emit (Mkdir path) ;;
  log INFO "writing to %s" [path] ;;
  let samp := nrates in
  if truthy partitions then
    (if truthy reps
     then log INFO "reps and partitions incompatible" []
     else ret tt) ;;
    parts <-
      (if truthy nusers then
         log INFO "computing %d samples of %d users"
             [show partitions; show nusers] ;;
         draw (sample_users ratings partitions nusers samp)
       else
         log INFO "computing %d partitions" [show partitions] ;;
         draw (partition_users ratings partitions samp)) ;;
    for_each (enumerate 1 parts) (fun it =>
      let i := fst it in
      let test := snd it in
      log INFO "writing test set %d" [str_of_int i] ;;
      to_parquet (path_join path (test_name i)) test)
  else
    n <- max_1 reps ;;
    for_each (range n) (fun i =>
      it <- draw (sample_users ratings (PInt 1) nusers samp) ;;
      test <- next it ;;
      let fn := if truthy reps then test_name i else "test.parquet" in
      log INFO "writing test data %s" [fn] ;;
      to_parquet (path_join path fn) test).

(** The artifacts a run wrote, in order. *)
Definition written (tr : list event) : list string :=
  flat_map (fun e => match e with ToParquet p _ => [p] | _ => [] end) tr.

(** The artifacts with the frame each one holds. *)
Definition artifacts (tr : list event) : list (string * frame) :=
  flat_map (fun e => match e with ToParquet p t => [(p, t)] | _ => [] end) tr.
End Main.

(** The same invocation with [-R] left out. *)
Definition without_R (a : args) : args :=
  mk_args (DATASET a) (opt_p a) (opt_u a) (opt_o a) (opt_n a) None.

(** The same invocation with [-p] left out. *)
Definition without_p (a : args) : args :=
  mk_args (DATASET a) None (opt_u a) (opt_o a) (opt_n a) (opt_R a).

(** A numeric option that [main] gets past: absent, empty, or a string
    [int] accepts. *)
Definition parses (py_int : string -> option Z) (o : option string) : Prop :=
  match o with
  | None => True
  | Some s => s = ""%string \/ exists z, py_int s = Some z
  end.

Arguments main {dataset ratings frame rng}.
Arguments written {frame}.
Arguments artifacts {frame}.
Arguments Log {frame}.
Arguments Mkdir {frame}.
Arguments ToParquet {frame}.

End SplitData.

(** A stand-in for the outside world, to run [main] on: decimal [int],
    one data set, and splitters that number the test frames they draw. *)
Module SplitDataExample.
Import Script SplitData.
Local Open Scope string_scope.

Definition py_int (s : string) : option Z :=
  option_map Z.of_int (NilZero.int_of_string s).

Definition init_file (_ _ _ : string) : nat := 0%nat.

Definition datasets (name : string) : option unit :=
  if (name =? "ml100k")%string then Some tt else None.

Definition count (v : pyval) : nat :=
  match v with PInt z => Z.to_nat z | _ => 0%nat end.

Definition sample_users (_ : unit) (parts _ : pyval) (_ : Z) (g : nat)
    : (exn + list nat) * nat :=
  (inr (seq g (count parts)), (g + count parts)%nat).

Definition partition_users (_ : unit) (parts : pyval) (_ : Z) (g : nat)
    : (exn + list nat) * nat :=
  (inr (seq g (count parts)), (g + count parts)%nat).

Definition run (a : args) : list (event nat) * (exn + unit) * nat :=
  main py_int init_file datasets (fun d => d) sample_users partition_users
       a 0%nat.

End SplitDataExample.

(* ================================================================== *)
(** * compute-metrics.py *)
(* ================================================================== *)

Module ComputeMetrics.
Import Script.
Local Open Scope string_scope.
Local Open Scope script_scope.

Record args : Type := mk_args {
  DATA : string;
  ALGO : string;
  opt_o : option string
}.

(** [_fn_re = re.compile(r'recs-(\d+)\.parquet')], used with [match]:
    anchored at the start of the name only.  [fn_match] returns group 1.
    Digits are the ASCII ones. *)
Definition is_digit (c : ascii) : bool :=
  (48 <=? nat_of_ascii c)%nat && (nat_of_ascii c <=? 57)%nat.

Fixpoint span_digits (s : string) : string * string :=
  match s with
  | EmptyString => (EmptyString, EmptyString)
  | String c rest =>
      if is_digit c
      then let (d, r) := span_digits rest in (String c d, r)
      else (EmptyString, s)
  end.

Definition fn_match (name : string) : option string :=
  if prefix "recs-" name then
    let (d, rest) := span_digits (substring 5 (String.length name - 5) name) in
    if (d =? "")%string then None
    else if prefix ".parquet" rest then Some d
    else None
  else None.

(** Every character of the string is a digit. *)
Fixpoint all_digits (s : string) : bool :=
  match s with
  | EmptyString => true
  | String c rest => is_digit c && all_digits rest
  end.

(** A run file: its directory and its name ([runf.name]). *)
Record run_file : Type := mk_run_file { parent : string; name : string }.

Definition full_path (f : run_file) : string := path_join (parent f) (name f).

Section Main.
(** What the script takes from outside the repository. *)
Variables table scores : Type.
(** [rd.glob('recs-*.parquet')]: the names found in directory [rd]. *)
Variable glob : string -> list string.
Variable read_parquet : string -> exn + table.
(** [RecListAnalysis] with the six metrics of [eval_run], then
    [compute(recs, test, include_missing=True)]. *)
Variable rla_compute : table -> table -> exn + scores.
(** [pd.concat(res, names=['run'])] on a nonempty dictionary. *)
Variable pd_concat : list (string * scores) -> scores.
Variable show_scores : scores -> string.
(** Which worker's exception [joblib] re-raises when several tasks
    fail: it depends on the order the workers finish in. *)
Variable surfaced : list exn -> exn.

Inductive event : Type :=
| Log (lvl : level) (fmt : string) (params : list string)
| ToParquet (path : string) (data : scores).

Definition log (lvl : level) (fmt : string) (params : list string)
    : M event unit unit :=
  emit (Log lvl fmt params).

(** [eval_run(data, runf)].  It runs in a worker and only reads. *)
Definition eval_run (data : string) (runf : run_file)
    : exn + (string * scores) :=
  let test_dir := path_join "data-split" data in
  match fn_match (name runf) with
  | None => inl AttributeError
  | Some part =>
      match read_parquet (full_path runf) with
      | inl e => inl e
      | inr recs =>
          match read_parquet
                  (path_join test_dir ("test-" ++ part ++ ".parquet")) with
          | inl e => inl e
          | inr test =>
              match rla_compute recs test with
              | inl e => inl e
              | inr vals => inr (part, vals)
              end
          end
      end
  end.

(** The exceptions and the values among the outcomes of the tasks. *)
Definition failures {A : Type} (rs : list (exn + A)) : list exn :=
  flat_map (fun r => match r with inl e => [e] | inr _ => [] end) rs.

Definition successes {A : Type} (rs : list (exn + A)) : list A :=
  flat_map (fun r => match r with inl _ => [] | inr a => [a] end) rs.

(** [loop(delayed(f)(x) for x in xs)] inside [with Parallel(...)]: the
    results in the order of the tasks, or the exception of a task
    that failed. *)
Definition parallel_loop {A : Type} (outcomes : list (exn + A))
    : M event unit (list A) :=
  match failures outcomes with
  | [] => ret (successes outcomes)
  | es => raise (surfaced es)
  end.

(** [dict(pairs)]: a later pair replaces the value of an equal key,
    which keeps its place. *)
Fixpoint dict_set {V : Type} (k : string) (v : V) (d : list (string * V))
    : list (string * V) :=
  match d with
  | [] => [(k, v)]
  | (k', v') :: d' =>
      if (k =? k')%string then (k', v) :: d' else (k', v') :: dict_set k v d'
  end.

Definition dict {V : Type} (pairs : list (string * V)) : list (string * V) :=
  fold_left (fun d kv => dict_set (fst kv) (snd kv) d) pairs [].

(** [pd.concat] raises [ValueError] when there is nothing to
    concatenate. *)
Definition concat (res : list (string * scores)) : M event unit scores :=
  match res with
  | [] => raise ValueError
  | _ => ret (pd_concat res)
  end.

Definition main (a : args) : M event unit unit :=
  let run_dir := "runs" in
  let data := DATA a in
  let algo := ALGO a in
  let outf :=
    match opt_o a with
    | Some o =>
        if (o =? "")%string
        then path_join run_dir (data ++ "-" ++ algo ++ "-scores.parquet")
        else o
    | None => path_join run_dir (data ++ "-" ++ algo ++ "-scores.parquet")
    end in
  let rd := path_join run_dir (data ++ "-" ++ algo) in
  let run_files := map (mk_run_file rd) (glob rd) in
  log INFO "scanning %d run files for %s-%s"
      [str_of_int (Z.of_nat (length run_files)); data; algo] ;;
  res <- parallel_loop (map (eval_run data) run_files) ;;
  let res := dict res in
  log INFO "finished, compiling" [] ;;
  scores <- concat res ;;
  log INFO "scores:\n%s" [show_scores scores] ;;
  log INFO "saving to %s" [outf] ;;
  emit (ToParquet outf scores).

(** Where [main] saves the scores. *)
Definition outf_of (a : args) : string :=
  match opt_o a with
  | Some o =>
      if (o =? "")%string
      then path_join "runs" (DATA a ++ "-" ++ ALGO a ++ "-scores.parquet")
      else o
  | None => path_join "runs" (DATA a ++ "-" ++ ALGO a ++ "-scores.parquet")
  end.

(** The run files [main] hands to the workers. *)
Definition run_files (a : args) : list run_file :=
  let rd := path_join "runs" (DATA a ++ "-" ++ ALGO a) in
  map (mk_run_file rd) (glob rd).

(** The score artifacts a run wrote. *)
Definition written (tr : list event) : list string :=
  flat_map (fun e => match e with ToParquet p _ => [p] | _ => [] end) tr.
End Main.

Arguments main {table scores}.
Arguments eval_run {table scores}.
Arguments written {scores}.
Arguments Log {scores}.
Arguments ToParquet {scores}.

End ComputeMetrics.

(** A stand-in for the outside world of the aggregator: tables are the
    names of the files they come from, every read succeeds except that
    of [runs/ml-als/recs-2.parquet]. *)
Module ComputeMetricsExample.
Import Script ComputeMetrics.
Local Open Scope string_scope.

Definition glob (rd : string) : list string :=
  ["recs-1.parquet"; "recs-2.parquet"; "recs-3.parquet"].

Definition read_parquet (p : string) : exn + string :=
  if (p =? "runs/ml-als/recs-2.parquet")%string
  then inl (OtherError "ArrowInvalid") else inr p.

Definition rla_compute (recs test : string) : exn + string :=
  inr (recs ++ " vs " ++ test).

Definition pd_concat (res : list (string * string)) : string :=
  String.concat ";" (map (fun kv => fst kv ++ ":" ++ snd kv) res).

Definition surfaced (es : list exn) : exn :=
  match es with e :: _ => e | [] => OtherError "none" end.

Definition run (a : args) : list (event string) * (exn + unit) * unit :=
  main glob read_parquet rla_compute pd_concat (fun s => s) surfaced a tt.

(** A directory with a stray file, and an empty one. *)
Definition glob_stray (rd : string) : list string :=
  ["recs-1.parquet"; "recs-final.parquet"].

Definition glob_none (rd : string) : list string := [].

End ComputeMetricsExample.

(* ================================================================== *)
(** * Properties of the metric *)
(* ================================================================== *)

Module MetricsProps.
Import Metrics.

(** ** Sums *)

Lemma fold_left_Qplus_acc (xs : list Q) (a : Q) :
  fold_left Qplus xs a == a + fold_left Qplus xs 0.
Proof.
  revert a; induction xs as [|x xs IH]; intros a; simpl.
  - ring.
  - rewrite (IH (a + x)), (IH (0 + x)). ring.
Qed.

Lemma np_sum_nil : np_sum [] == 0.
Proof. reflexivity. Qed.

Lemma np_sum_cons (x : Q) (xs : list Q) : np_sum (x :: xs) == x + np_sum xs.
Proof.
  unfold np_sum; simpl. rewrite fold_left_Qplus_acc. ring.
Qed.

Lemma np_sum_app (xs ys : list Q) : np_sum (xs ++ ys) == np_sum xs + np_sum ys.
Proof.
  induction xs as [|x xs IH]; simpl.
  - rewrite np_sum_nil. ring.
  - rewrite !np_sum_cons, IH. ring.
Qed.

Lemma np_sum_nonneg (xs : list Q) :
  Forall (fun x => 0 <= x) xs -> 0 <= np_sum xs.
Proof.
  induction 1 as [|x xs Hx _ IH].
  - rewrite np_sum_nil. apply Qle_refl.
  - rewrite np_sum_cons. lra.
Qed.

(** ** Boolean indexing and membership *)

Lemma mask_select_map {A B : Type} (f : A -> B) (g : A -> bool) (l : list A) :
  mask_select (map f l) (map g l) = map f (filter g l).
Proof.
  unfold mask_select.
  induction l as [|a l IH]; simpl; [reflexivity|].
  destruct (g a); simpl; now rewrite IH.
Qed.

Lemma isin_In (x : Z) (index : list Z) : isin x index = true <-> In x index.
Proof.
  unfold isin. rewrite existsb_exists. split.
  - intros [y [Hy Heq]]. apply Z.eqb_eq in Heq. now subst.
  - intros H. exists x. split; [assumption | apply Z.eqb_refl].
Qed.

Lemma isin_not_In (x : Z) (index : list Z) : isin x index = false <-> ~ In x index.
Proof.
  rewrite <- isin_In. destruct (isin x index); split; intros; congruence.
Qed.

(** The score of a list judged against a nonempty truth set, unfolded
    once: the scaled sum over the retained rows that hit. *)
Lemma rbp_nonempty (recs : list rec_row) (truth : list Z) (k : option Z)
    (patience : Q) :
  truth <> [] ->
  rbp recs truth k patience =
  Some (np_sum (discount_s (map rank (hits (apply_cutoff k recs) truth)) patience)
        * (1 - patience)).
Proof.
  intros Hne. unfold rbp, hits.
  destruct truth as [|t truth]; [congruence|]. cbn [length Nat.eqb].
  now rewrite mask_select_map.
Qed.

Lemma hit_sum_spec (recs : list rec_row) (truth : list Z) (patience : Q) :
  np_sum (discount_s (map rank (hits recs truth)) patience)
  == spec_hit_sum recs truth patience.
Proof.
  induction recs as [|r rs IH]; simpl.
  - apply np_sum_nil.
  - destruct (in_dec Z.eq_dec (item r) truth) as [Hin|Hnin].
    + apply isin_In in Hin. rewrite Hin. simpl.
      rewrite np_sum_cons, IH. reflexivity.
    + apply isin_not_In in Hnin. rewrite Hnin. exact IH.
Qed.

Lemma spec_truncate_firstn (k : nat) (recs : list rec_row) :
  spec_truncate k recs = firstn k recs.
Proof.
  revert k; induction recs as [|r rs IH]; intros [|k]; simpl;
    try reflexivity.
  f_equal. apply IH.
Qed.

(** ** Powers of the patience *)

Lemma discount_succ (patience : Q) (n : nat) :
  discount (Z.of_nat (S n)) patience == patience * discount (Z.of_nat n) patience.
Proof.
  unfold discount. rewrite Nat2Z.inj_succ.
  unfold Z.succ. rewrite Z.add_comm.
  rewrite Qpower_plus' by lia. rewrite Qpower_1_r. reflexivity.
Qed.

Lemma discount_spec_power (patience : Q) (n : nat) :
  discount (Z.of_nat n) patience == spec_power patience n.
Proof.
  induction n as [|n IH].
  - reflexivity.
  - rewrite discount_succ, IH. reflexivity.
Qed.

Lemma power_lt_1 (patience : Q) (n : nat) :
  0 < patience -> patience < 1 -> patience ^ Z.of_nat (S n) < 1.
Proof.
  intros H0 H1. induction n as [|n IH].
  - change (patience ^ 1 < 1). rewrite Qpower_1_r. assumption.
  - fold (discount (Z.of_nat (S (S n))) patience).
    rewrite discount_succ. unfold discount.
    assert (Hpos : 0 < patience ^ Z.of_nat (S n)) by now apply Qpower_0_lt.
    nra.
Qed.

Lemma discount_decreasing (patience : Q) (r1 r2 : Z) :
  0 < patience -> patience < 1 -> (r1 < r2)%Z ->
  discount r2 patience < discount r1 patience.
Proof.
  intros H0 H1 Hr. unfold discount.
  replace r2 with (r1 + Z.of_nat (S (Z.to_nat (r2 - r1 - 1))))%Z by lia.
  rewrite Qpower_plus by lra.
  pose proof (power_lt_1 patience (Z.to_nat (r2 - r1 - 1)) H0 H1) as Hlt.
  pose proof (Qpower_0_lt patience r1 H0) as Hpos.
  nra.
Qed.

Lemma discount_nonincreasing (patience : Q) (r1 r2 : Z) :
  0 < patience -> patience < 1 -> (r1 <= r2)%Z ->
  discount r2 patience <= discount r1 patience.
Proof.
  intros H0 H1 Hr.
  destruct (Z.eq_dec r1 r2) as [->|Hne]; [apply Qle_refl|].
  apply Qlt_le_weak, discount_decreasing; [assumption..|lia].
Qed.

(** ** Truncation *)

Lemma apply_cutoff_nonneg {A : Type} (k : Z) (l : list A) :
  (0 <= k)%Z -> apply_cutoff (Some k) l = firstn (Z.to_nat k) l.
Proof.
  intros Hk. unfold apply_cutoff, iloc_to.
  destruct (0 <=? k)%Z eqn:E; [reflexivity|]. apply Z.leb_gt in E. lia.
Qed.

Lemma apply_cutoff_prefix {A : Type} (k : option Z) (l : list A) :
  exists n, apply_cutoff k l = firstn n l.
Proof.
  destruct k as [k|]; simpl.
  - unfold iloc_to. destruct (0 <=? k)%Z; eauto.
  - exists (length l). now rewrite firstn_all.
Qed.

Lemma firstn_le_split {A : Type} (n m : nat) (l : list A) :
  (n <= m)%nat -> exists rest, firstn m l = firstn n l ++ rest.
Proof.
  intros Hnm. exists (skipn n (firstn m l)).
  rewrite <- (firstn_skipn n (firstn m l)) at 1.
  rewrite firstn_firstn. now rewrite Nat.min_l.
Qed.

Lemma in_firstn_in {A : Type} (n : nat) (l : list A) (x : A) :
  In x (firstn n l) -> In x l.
Proof.
  intros Hx. rewrite <- (firstn_skipn n l). apply in_or_app. now left.
Qed.

Lemma hits_app (l1 l2 : list rec_row) (truth : list Z) :
  hits (l1 ++ l2) truth = hits l1 truth ++ hits l2 truth.
Proof. apply filter_app. Qed.

Lemma discount_s_nonneg (ranks : list Z) (patience : Q) :
  0 <= patience -> Forall (fun x => 0 <= x) (discount_s ranks patience).
Proof.
  intros Hp. unfold discount_s. apply Forall_map, Forall_forall.
  intros r _. now apply Qpower_0_le.
Qed.

Lemma discount_s_cons (r : Z) (ranks : list Z) (patience : Q) :
  discount_s (r :: ranks) patience
  = discount r patience :: discount_s ranks patience.
Proof. reflexivity. Qed.

(** ** The scalar metric *)

(** C4.  Whatever the recommendation list, the cutoff and the patience,
    a truth frame with no rows ([len(truth) == 0]) makes the scalar RBP
    return [None]. *)
Theorem rbp_empty_truth_is_None (recs : list rec_row) (truth : list Z)
    (k : option Z) (patience : Q) :
  length truth = 0%nat -> rbp recs truth k patience = None.
Proof.
  intros Hlen. unfold rbp. now rewrite Hlen.
Qed.

Lemma rbp_empty_truth_is_None_witness :
  length (@nil Z) = 0%nat /\
  rbp [mk_rec 7 1; mk_rec 9 2] [] (Some 1%Z) PATIENCE = None.
Proof.
  split; [reflexivity|].
  apply (rbp_empty_truth_is_None [mk_rec 7 1; mk_rec 9 2] [] (Some 1%Z) PATIENCE).
  reflexivity.
Defined.

(** C5.  For a nonempty truth set, any patience and an optional cutoff
    [k >= 0], the scalar RBP is defined and equals the score of the
    specification: [(1 - patience)] times the sum of [patience^rank]
    over the entries, among the first [k], whose item is in the truth
    set. *)
Theorem rbp_scalar_formula (recs : list rec_row) (truth : list Z)
    (k : option Z) (patience : Q) :
  truth <> [] ->
  match k with Some k => (0 <= k)%Z | None => True end ->
  exists score,
    rbp recs truth k patience = Some score /\
    score == spec_rbp recs truth (option_map Z.to_nat k) patience.
Proof.
  intros Hne Hk. rewrite (rbp_nonempty _ _ _ _ Hne).
  eexists; split; [reflexivity|].
  unfold spec_rbp. rewrite hit_sum_spec.
  destruct k as [k|]; simpl option_map; cbv iota.
  - rewrite apply_cutoff_nonneg by assumption.
    rewrite spec_truncate_firstn. ring.
  - unfold apply_cutoff. ring.
Qed.

Lemma rbp_scalar_formula_witness :
  exists score,
    rbp [mk_rec 7 1; mk_rec 9 2; mk_rec 4 3] [4; 7]%Z (Some 2%Z) PATIENCE
      = Some score /\
    score == spec_rbp [mk_rec 7 1; mk_rec 9 2; mk_rec 4 3] [4; 7]%Z
               (Some 2%nat) PATIENCE.
Proof.
  apply (rbp_scalar_formula [mk_rec 7 1; mk_rec 9 2; mk_rec 4 3] [4; 7]%Z
           (Some 2%Z) PATIENCE).
  - discriminate.
  - simpl. lia.
Defined.

(** C6.  For a patience strictly between 0 and 1, [discount] is the
    power [patience^rank] (the repeated product on natural ranks),
    [discount 0 = 1], and a larger rank has a strictly smaller
    discount. *)
Theorem discount_power_strictly_decreasing (patience : Q) :
  0 < patience -> patience < 1 ->
  (forall n : nat, discount (Z.of_nat n) patience == spec_power patience n) /\
  discount 0 patience == 1 /\
  (forall r1 r2 : Z, (r1 < r2)%Z ->
     discount r2 patience < discount r1 patience).
Proof.
  intros H0 H1. split; [|split].
  - intros n. apply discount_spec_power.
  - reflexivity.
  - intros r1 r2 Hr. now apply discount_decreasing.
Qed.

Lemma discount_power_strictly_decreasing_witness :
  (forall n : nat, discount (Z.of_nat n) PATIENCE == spec_power PATIENCE n) /\
  discount 0 PATIENCE == 1 /\
  (forall r1 r2 : Z, (r1 < r2)%Z ->
     discount r2 PATIENCE < discount r1 PATIENCE).
Proof.
  apply (discount_power_strictly_decreasing PATIENCE); reflexivity.
Defined.

(** C7.  For a nonempty truth set, a patience in (0,1) and cutoffs
    [0 <= k1 < k2], the score with cutoff [k1] is at most the score with
    cutoff [k2]. *)
Theorem rbp_cutoff_monotone (recs : list rec_row) (truth : list Z)
    (k1 k2 : Z) (patience : Q) :
  truth <> [] -> 0 < patience -> patience < 1 ->
  (0 <= k1)%Z -> (k1 < k2)%Z ->
  exists s1 s2,
    rbp recs truth (Some k1) patience = Some s1 /\
    rbp recs truth (Some k2) patience = Some s2 /\
    s1 <= s2.
Proof.
  intros Hne H0 H1 Hk1 Hk.
  rewrite !(rbp_nonempty _ _ _ _ Hne).
  do 2 eexists; split; [reflexivity|split; [reflexivity|]].
  rewrite !apply_cutoff_nonneg by lia.
  destruct (firstn_le_split (Z.to_nat k1) (Z.to_nat k2) recs) as [rest ->];
    [lia|].
  rewrite hits_app, map_app. unfold discount_s at 2. rewrite map_app.
  fold (discount_s (map rank (hits (firstn (Z.to_nat k1) recs) truth)) patience).
  fold (discount_s (map rank (hits rest truth)) patience).
  rewrite np_sum_app.
  pose proof (np_sum_nonneg _
    (discount_s_nonneg (map rank (hits rest truth)) patience
       (Qlt_le_weak _ _ H0))) as Hrest.
  nra.
Qed.

Lemma rbp_cutoff_monotone_witness :
  exists s1 s2,
    rbp [mk_rec 7 1; mk_rec 9 2; mk_rec 4 3] [4; 7]%Z (Some 1%Z) PATIENCE
      = Some s1 /\
    rbp [mk_rec 7 1; mk_rec 9 2; mk_rec 4 3] [4; 7]%Z (Some 3%Z) PATIENCE
      = Some s2 /\
    s1 <= s2.
Proof.
  apply (rbp_cutoff_monotone [mk_rec 7 1; mk_rec 9 2; mk_rec 4 3] [4; 7]%Z
           1 3 PATIENCE);
    first [discriminate | reflexivity | lia].
Defined.

(** C10.  For a nonempty truth set, when no row retained by the cutoff
    carries an item of the truth set, the scalar RBP returns a defined
    score equal to 0, which is not the missing marker [None] returned
    for an empty truth set. *)
Theorem rbp_no_hit_is_zero (recs : list rec_row) (truth : list Z)
    (k : option Z) (patience : Q) :
  truth <> [] ->
  (forall r, In r (apply_cutoff k recs) -> ~ In (item r) truth) ->
  (exists score, rbp recs truth k patience = Some score /\ score == 0) /\
  rbp recs truth k patience <> rbp recs [] k patience.
Proof.
  intros Hne Hmiss. rewrite (rbp_nonempty _ _ _ _ Hne). split.
  - eexists; split; [reflexivity|].
    assert (Hnil : hits (apply_cutoff k recs) truth = []).
    { unfold hits. induction (apply_cutoff k recs) as [|r rs IH]; simpl.
      - reflexivity.
      - assert (Hr : isin (item r) truth = false).
        { apply isin_not_In, Hmiss. now left. }
        rewrite Hr. apply IH. intros r' Hr'. apply Hmiss. now right. }
    rewrite Hnil. simpl. unfold np_sum; simpl. ring.
  - discriminate.
Qed.

Lemma rbp_no_hit_is_zero_witness :
  (exists score,
     rbp [mk_rec 7 1; mk_rec 9 2; mk_rec 4 3] [4; 5]%Z (Some 2%Z) PATIENCE
       = Some score /\ score == 0) /\
  rbp [mk_rec 7 1; mk_rec 9 2; mk_rec 4 3] [4; 5]%Z (Some 2%Z) PATIENCE
    <> rbp [mk_rec 7 1; mk_rec 9 2; mk_rec 4 3] [] (Some 2%Z) PATIENCE.
Proof.
  apply (rbp_no_hit_is_zero [mk_rec 7 1; mk_rec 9 2; mk_rec 4 3] [4; 5]%Z
           (Some 2%Z) PATIENCE).
  - discriminate.
  - simpl. intros r [<-|[<-|[]]]; simpl; lia.
Defined.

(** ** The bound [rbp_max] *)

Lemma arange_ramp (lo hi : Z) : arange lo hi = ramp lo (Z.to_nat (hi - lo)).
Proof. reflexivity. Qed.

Lemma ramp_succ (b : Z) (m : nat) : ramp b (S m) = b :: ramp (b + 1) m.
Proof.
  unfold ramp. rewrite <- cons_seq, <- seq_shift. simpl.
  rewrite Z.add_0_r, map_map. f_equal.
  apply map_ext. intros i. lia.
Qed.

Lemma ramp_app (b : Z) (m n : nat) :
  ramp b (m + n) = ramp b m ++ ramp (b + Z.of_nat m) n.
Proof.
  revert b; induction m as [|m IH]; intros b.
  - simpl. now rewrite Z.add_0_r.
  - change (S m + n)%nat with (S (m + n)).
    rewrite !ramp_succ, IH. simpl. do 3 f_equal. lia.
Qed.

Lemma ramp_length (b : Z) (m : nat) : length (ramp b m) = m.
Proof. unfold ramp. now rewrite length_map, length_seq. Qed.

Lemma ramp_sorted (b : Z) (m : nat) :
  StronglySorted Z.lt (ramp b m) /\ Forall (fun r => (b <= r)%Z) (ramp b m).
Proof.
  revert b; induction m as [|m IH]; intros b.
  - split; constructor.
  - rewrite ramp_succ. destruct (IH (b + 1)%Z) as [Hs Hb]. split.
    + constructor; [assumption|].
      eapply Forall_impl; [|exact Hb]. simpl; intros; lia.
    + constructor; [lia|].
      eapply Forall_impl; [|exact Hb]. simpl; intros; lia.
Qed.

Lemma ramp_sum_le (patience : Q) (b : Z) (m n : nat) :
  0 <= patience -> (m <= n)%nat ->
  np_sum (discount_s (ramp b m) patience)
  <= np_sum (discount_s (ramp b n) patience).
Proof.
  intros Hp Hmn. replace n with (m + (n - m))%nat by lia.
  rewrite ramp_app. unfold discount_s at 2. rewrite map_app, np_sum_app.
  pose proof (np_sum_nonneg _
    (discount_s_nonneg (ramp (b + Z.of_nat m) (n - m)) patience Hp)) as Hrest.
  unfold discount_s in *. lra.
Qed.

(** Rows picked out of an increasing list with ranks from [b] on weigh
    no more than the ranks [b, b+1, ...] themselves. *)
Lemma picked_sum_le (patience : Q) (f : rec_row -> bool) (recs : list rec_row) :
  0 < patience -> patience < 1 ->
  forall b : Z,
    StronglySorted Z.lt (map rank recs) ->
    Forall (fun r => (b <= rank r)%Z) recs ->
    np_sum (discount_s (map rank (filter f recs)) patience)
    <= np_sum (discount_s (ramp b (length (filter f recs))) patience).
Proof.
  intros H0 H1. induction recs as [|r rs IH]; intros b Hs Hb.
  - apply Qle_refl.
  - simpl in Hs. apply StronglySorted_inv in Hs as [Hs Hr].
    inversion Hb as [|? ? Hbr Hbrs]; subst.
    cbn [filter]. destruct (f r).
    + cbn [length map]. rewrite ramp_succ, !discount_s_cons, !np_sum_cons.
      assert (Hrs : Forall (fun r' => (b + 1 <= rank r')%Z) rs).
      { rewrite Forall_map in Hr.
        eapply Forall_impl; [|exact Hr]. simpl; intros; lia. }
      pose proof (IH (b + 1)%Z Hs Hrs) as Htail.
      pose proof (discount_nonincreasing patience b (rank r) H0 H1 Hbr).
      lra.
    + apply IH; assumption.
Qed.

Lemma hits_length_le (recs : list rec_row) (truth : list Z) :
  NoDup (map item recs) -> (length (hits recs truth) <= length truth)%nat.
Proof.
  intros Hnd. rewrite <- (length_map item (hits recs truth)).
  apply NoDup_incl_length.
  - unfold hits. induction recs as [|r rs IH]; simpl; [constructor|].
    inversion Hnd as [|? ? Hnin Hnd']; subst.
    destruct (isin (item r) truth); [|now apply IH].
    simpl. constructor; [|now apply IH].
    intros Hin. apply Hnin. apply in_map_iff in Hin as [x [Hx Hin]].
    apply filter_In in Hin as [Hin _]. apply in_map_iff. eauto.
  - intros x Hx. apply in_map_iff in Hx as [r [<- Hr]].
    apply filter_In in Hr as [_ Hr]. now apply isin_In.
Qed.

Lemma well_formed_firstn (n : nat) (recs : list rec_row) :
  well_formed recs -> well_formed (firstn n recs).
Proof.
  revert n. induction recs as [|r rs IH]; intros n Hwf.
  - now rewrite firstn_nil.
  - destruct n as [|n]; [repeat split; constructor|].
    destruct Hwf as [Hs [Hb Hnd]]. simpl in *.
    apply StronglySorted_inv in Hs as [Hs Hr].
    inversion Hb as [|? ? Hbr Hbrs]; subst.
    inversion Hnd as [|? ? Hnin Hnd']; subst.
    destruct (IH n (conj Hs (conj Hbrs Hnd'))) as [Hs' [Hb' Hnd'']].
    unfold well_formed. cbn [firstn map]. repeat split.
    + constructor; [assumption|].
      rewrite <- firstn_map. apply Forall_forall. intros x Hx.
      rewrite Forall_forall in Hr. apply Hr. eapply in_firstn_in; eassumption.
    + now constructor.
    + constructor; [|assumption].
      intros Hin. apply Hnin. rewrite <- firstn_map in Hin.
      eapply in_firstn_in; eassumption.
Qed.

Lemma rbp_max_ramp (n : nat) (patience : Q) :
  rbp_max (Z.of_nat n) patience
  = np_sum (discount_s (ramp 1 n) patience) * (1 - patience).
Proof.
  unfold rbp_max. rewrite arange_ramp.
  replace (Z.to_nat (Z.of_nat n + 1 - 1)) with n by lia. reflexivity.
Qed.

Lemma hits_all (recs : list rec_row) (truth : list Z) :
  Forall (fun r => In (item r) truth) recs -> hits recs truth = recs.
Proof.
  induction 1 as [|r rs Hr _ IH]; simpl; [reflexivity|].
  apply isin_In in Hr. rewrite Hr. now rewrite IH.
Qed.

Lemma ideal_list_ranks (truth : list Z) :
  map rank (ideal_list truth) = ramp 1 (length truth).
Proof.
  unfold ideal_list. rewrite arange_ramp.
  replace (Z.to_nat (Z.of_nat (length truth) + 1 - 1)) with (length truth) by lia.
  rewrite map_map. simpl.
  change (map (fun x : Z * Z => fst x) ?l) with (map fst l).
  generalize (1%Z). induction truth as [|t ts IH]; intros b.
  - reflexivity.
  - cbn [length]. rewrite ramp_succ. simpl. f_equal. apply IH.
Qed.

Lemma ideal_list_items (truth : list Z) :
  map item (ideal_list truth) = truth.
Proof.
  unfold ideal_list. rewrite arange_ramp.
  replace (Z.to_nat (Z.of_nat (length truth) + 1 - 1)) with (length truth) by lia.
  rewrite map_map. simpl.
  generalize (1%Z). induction truth as [|t ts IH]; intros b.
  - reflexivity.
  - cbn [length]. rewrite ramp_succ. simpl. f_equal. apply IH.
Qed.

Lemma ideal_list_well_formed (truth : list Z) :
  NoDup truth -> well_formed (ideal_list truth).
Proof.
  intros Hnd. unfold well_formed.
  rewrite ideal_list_ranks, ideal_list_items.
  destruct (ramp_sorted 1 (length truth)) as [Hs Hb].
  repeat split; try assumption.
  rewrite <- ideal_list_ranks in Hb. now rewrite Forall_map in Hb.
Qed.

(** C8.  For a nonempty truth set and a patience in (0,1): every
    well-formed list (positive, strictly increasing ranks; no repeated
    item) scores at most [rbp_max(len(truth))], under any cutoff; and
    when the truth set has no repeated item, that bound is the score of
    a well-formed list. *)
Theorem rbp_max_is_maximum (truth : list Z) (patience : Q) :
  truth <> [] -> 0 < patience -> patience < 1 ->
  (forall recs k, well_formed recs ->
     exists score,
       rbp recs truth k patience = Some score /\
       score <= rbp_max (Z.of_nat (length truth)) patience) /\
  (NoDup truth ->
     exists recs score,
       well_formed recs /\
       rbp recs truth None patience = Some score /\
       score == rbp_max (Z.of_nat (length truth)) patience).
Proof.
  intros Hne H0 H1. split.
  - intros recs k Hwf. rewrite (rbp_nonempty _ _ _ _ Hne).
    eexists; split; [reflexivity|].
    destruct (apply_cutoff_prefix k recs) as [n ->].
    destruct (well_formed_firstn n recs Hwf) as [Hs [Hb Hnd]].
    rewrite rbp_max_ramp.
    pose proof (picked_sum_le patience (fun r => isin (item r) truth)
                  (firstn n recs) H0 H1 1%Z Hs Hb) as Hpick.
    fold (hits (firstn n recs) truth) in Hpick.
    pose proof (ramp_sum_le patience 1 _ _ (Qlt_le_weak _ _ H0)
                  (hits_length_le (firstn n recs) truth Hnd)) as Hramp.
    nra.
  - intros Hnd. exists (ideal_list truth). eexists.
    split; [now apply ideal_list_well_formed|].
    rewrite (rbp_nonempty _ _ _ _ Hne). split; [reflexivity|].
    unfold apply_cutoff. rewrite hits_all.
    + rewrite ideal_list_ranks, rbp_max_ramp. reflexivity.
    + apply Forall_forall. intros r Hr.
      rewrite <- (ideal_list_items truth). now apply in_map.
Qed.

Lemma rbp_max_is_maximum_witness :
  (forall recs k, well_formed recs ->
     exists score,
       rbp recs [4; 7]%Z k PATIENCE = Some score /\
       score <= rbp_max 2 PATIENCE) /\
  (NoDup [4; 7]%Z ->
     exists recs score,
       well_formed recs /\
       rbp recs [4; 7]%Z None PATIENCE = Some score /\
       score == rbp_max 2 PATIENCE).
Proof.
  apply (rbp_max_is_maximum [4; 7]%Z PATIENCE);
    first [discriminate | reflexivity].
Defined.

(** ** Concrete runs *)

(** One user, two recommendations, the first of which is relevant:
    [(1 - 0.8) * 0.8^1 = 0.16] under the cutoff 1000. *)
Example rbp_first_rank_hit :
  exists s, rbp [mk_rec 1 1; mk_rec 2 2] [1%Z] (Some 1000%Z) PATIENCE = Some s /\
            s == 16 # 100.
Proof. eexists. split; reflexivity. Qed.

(** The same user with an empty truth frame has no score. *)
Example rbp_no_truth :
  rbp [mk_rec 1 1; mk_rec 2 2] [] (Some 1000%Z) PATIENCE = None.
Proof. reflexivity. Qed.

Example rbp_max_two : rbp_max 2 PATIENCE == 288 # 1000.
Proof. reflexivity. Qed.

(** A negative [k] is not a cutoff: [iloc[:k]] then drops rows from the
    end of the list. *)
Example iloc_to_negative : iloc_to (-1) [1; 2; 3]%Z = [1; 2]%Z.
Proof. reflexivity. Qed.

End MetricsProps.

(* ================================================================== *)
(** * The bulk form against the scalar form *)
(* ================================================================== *)

Module BulkProps.
Import Metrics MetricsProps.

(** ** Series *)

Lemma series_add_keys (key : Z) (v : Q) (s : series) (x : Z) :
  In x (map fst (series_add key v s)) -> x = key \/ In x (map fst s).
Proof.
  induction s as [|[k' v'] s IH]; simpl.
  - intros [<-|[]]. now left.
  - destruct (key <? k')%Z; [|destruct (key =? k')%Z]; simpl.
    + intros [<-|[<-|H]]; auto.
    + intros [<-|H]; auto.
    + intros [<-|H]; auto. destruct (IH H); auto.
Qed.

Lemma series_add_sorted (key : Z) (v : Q) (s : series) :
  keys_sorted s -> keys_sorted (series_add key v s).
Proof.
  unfold keys_sorted. induction s as [|[k' v'] s IH]; simpl; intros Hs.
  - repeat constructor.
  - apply StronglySorted_inv in Hs as [Hs Hk].
    destruct (key <? k')%Z eqn:E1; [|destruct (key =? k')%Z eqn:E2]; simpl.
    + apply Z.ltb_lt in E1. constructor.
      * now constructor.
      * constructor; [assumption|].
        eapply Forall_impl; [|exact Hk]. simpl; intros; lia.
    + now constructor.
    + apply Z.ltb_ge in E1. apply Z.eqb_neq in E2.
      constructor; [now apply IH|].
      apply Forall_forall. intros x Hx.
      apply series_add_keys in Hx as [->|Hx]; [lia|].
      rewrite Forall_forall in Hk. now apply Hk.
Qed.

Lemma series_get_above (key : Z) (s : series) :
  Forall (Z.lt key) (map fst s) -> series_get key s = None.
Proof.
  unfold series_get. induction s as [|[k' v'] s IH]; simpl; intros H.
  - reflexivity.
  - inversion H as [|? ? Hk Hs]; subst.
    destruct (Z.eqb_spec k' key); [lia|]. now apply IH.
Qed.

Lemma series_get_add_same (key : Z) (v : Q) (s : series) :
  keys_sorted s ->
  series_get key (series_add key v s) = opt_add (series_get key s) v.
Proof.
  unfold keys_sorted. induction s as [|[k' v'] s IH]; simpl; intros Hs.
  - unfold series_get. simpl. now rewrite Z.eqb_refl.
  - apply StronglySorted_inv in Hs as [Hs Hk].
    destruct (key <? k')%Z eqn:E1; [|destruct (key =? k')%Z eqn:E2].
    + apply Z.ltb_lt in E1.
      rewrite (series_get_above key ((k', v') :: s)).
      * unfold series_get. simpl. now rewrite Z.eqb_refl.
      * simpl. constructor; [assumption|].
        eapply Forall_impl; [|exact Hk]. simpl; intros; lia.
    + apply Z.eqb_eq in E2. subst k'.
      unfold series_get. simpl. now rewrite Z.eqb_refl.
    + rewrite Z.eqb_sym in E2.
      unfold series_get in *. simpl. rewrite E2. now apply IH.
Qed.

Lemma series_get_add_other (key key' : Z) (v : Q) (s : series) :
  key <> key' ->
  series_get key' (series_add key v s) = series_get key' s.
Proof.
  intros Hne. unfold series_get.
  assert (E : (key =? key')%Z = false) by now apply Z.eqb_neq.
  induction s as [|[k' v'] s IH]; simpl.
  - now rewrite E.
  - destruct (key <? k')%Z; [|destruct (key =? k')%Z eqn:E2]; simpl.
    + now rewrite E.
    + apply Z.eqb_eq in E2. subst k'. now rewrite E.
    + destruct (k' =? key')%Z; [reflexivity|]. exact IH.
Qed.

Lemma groupby_fold_get (key : Z) (rows : list (Z * Q)) (acc : series) :
  keys_sorted acc ->
  series_get key
    (fold_left (fun acc kv => series_add (fst kv) (snd kv) acc) rows acc)
  = fold_left (fun o kv => if (fst kv =? key)%Z then opt_add o (snd kv) else o)
      rows (series_get key acc).
Proof.
  revert acc. induction rows as [|[k v] rows IH]; intros acc Hs; simpl.
  - reflexivity.
  - rewrite IH by now apply series_add_sorted.
    f_equal. destruct (Z.eqb_spec k key) as [->|Hne].
    + now apply series_get_add_same.
    + now apply series_get_add_other.
Qed.

Lemma opt_fold_some (key : Z) (rows : list (Z * Q)) (x : Q) :
  exists v,
    fold_left (fun o kv => if (fst kv =? key)%Z then opt_add o (snd kv) else o)
      rows (Some x) = Some v /\
    v == x + np_sum (group_values key rows).
Proof.
  revert x. induction rows as [|[k w] rows IH]; intros x; simpl.
  - exists x. split; [reflexivity|]. unfold group_values; simpl.
    rewrite np_sum_nil. ring.
  - unfold group_values. simpl. destruct (k =? key)%Z; simpl.
    + destruct (IH (x + w)) as [v [E Hv]]. exists v. split; [exact E|].
      rewrite Hv, np_sum_cons. unfold group_values. ring.
    + apply IH.
Qed.

Lemma opt_fold_none (key : Z) (rows : list (Z * Q)) :
  match group_values key rows with
  | [] =>
      fold_left (fun o kv => if (fst kv =? key)%Z then opt_add o (snd kv) else o)
        rows None = None
  | _ :: _ =>
      exists v,
        fold_left
          (fun o kv => if (fst kv =? key)%Z then opt_add o (snd kv) else o)
          rows None = Some v /\
        v == np_sum (group_values key rows)
  end.
Proof.
  induction rows as [|[k w] rows IH]; simpl.
  - reflexivity.
  - unfold group_values in *. simpl. destruct (k =? key)%Z; simpl.
    + destruct (opt_fold_some key rows w) as [v [E Hv]].
      exists v. split; [exact E|]. rewrite Hv, np_sum_cons. reflexivity.
    + exact IH.
Qed.

(** What [groupby(...).sum()] holds for one key. *)
Lemma groupby_sum_get (key : Z) (rows : list (Z * Q)) :
  match group_values key rows with
  | [] => series_get key (groupby_sum rows) = None
  | _ :: _ =>
      exists v, series_get key (groupby_sum rows) = Some v /\
                v == np_sum (group_values key rows)
  end.
Proof.
  unfold groupby_sum. rewrite groupby_fold_get by constructor.
  apply opt_fold_none.
Qed.

Lemma series_get_scale (key : Z) (c : Q) (s : series) :
  series_get key (map (fun kv => (fst kv, snd kv * c)) s)
  = option_map (fun v => v * c) (series_get key s).
Proof.
  unfold series_get. induction s as [|[k v] s IH]; simpl; [reflexivity|].
  destruct (k =? key)%Z; [reflexivity|exact IH].
Qed.

(** ** The join *)

Lemma key_matches_eq (r : bulk_row) (t : truth_row) :
  key_matches r t = true <-> t = (LKTruthID r, b_item r).
Proof.
  unfold key_matches. rewrite andb_true_iff, !Z.eqb_eq.
  destruct t as [a b]; simpl. split.
  - intros [-> ->]. reflexivity.
  - intros E. injection E as -> ->. split; reflexivity.
Qed.

Lemma filter_key_absent (r : bulk_row) (truth : list truth_row) :
  ~ In (LKTruthID r, b_item r) truth ->
  filter (key_matches r) truth = [] /\ in_truth truth r = false.
Proof.
  unfold in_truth. induction truth as [|t ts IH]; simpl; intros Hn.
  - split; reflexivity.
  - destruct (key_matches r t) eqn:E.
    + apply key_matches_eq in E. subst t. exfalso. apply Hn. now left.
    + apply IH. intros H. apply Hn. now right.
Qed.

Lemma join_row (r : bulk_row) (truth : list truth_row) :
  NoDup truth ->
  map (fun _ => r) (filter (key_matches r) truth)
  = if in_truth truth r then [r] else [].
Proof.
  unfold in_truth. induction 1 as [|t ts Hnin Hnd IH]; simpl.
  - reflexivity.
  - destruct (key_matches r t) eqn:E; simpl.
    + apply key_matches_eq in E. subst t.
      destruct (filter_key_absent r ts Hnin) as [-> _]. reflexivity.
    + exact IH.
Qed.

Lemma inner_join_filter (recs : list bulk_row) (truth : list truth_row) :
  NoDup truth -> inner_join recs truth = filter (in_truth truth) recs.
Proof.
  intros Hnd. unfold inner_join.
  induction recs as [|r rs IH]; simpl; [reflexivity|].
  rewrite join_row by assumption. rewrite IH.
  destruct (in_truth truth r); reflexivity.
Qed.

Lemma in_truth_isin (truth : list truth_row) (r : bulk_row) :
  in_truth truth r = isin (b_item r) (truth_slice (LKTruthID r) truth).
Proof.
  apply eq_iff_eq_true. unfold in_truth. rewrite existsb_exists, isin_In.
  unfold truth_slice. rewrite in_map_iff. split.
  - intros [t [Hin Hk]]. apply key_matches_eq in Hk. subst t.
    exists (LKTruthID r, b_item r). split; [reflexivity|].
    apply filter_In. split; [assumption|]. simpl. apply Z.eqb_refl.
  - intros [[a b] [Hb Hin]]. simpl in Hb. subst b.
    apply filter_In in Hin as [Hin Ha]. simpl in Ha. apply Z.eqb_eq in Ha.
    subst a. exists (LKTruthID r, b_item r). split; [assumption|].
    now apply key_matches_eq.
Qed.

(** ** Slices *)

Lemma filter_comm {A : Type} (f g : A -> bool) (l : list A) :
  filter f (filter g l) = filter g (filter f l).
Proof.
  induction l as [|a l IH]; simpl; [reflexivity|].
  destruct (f a) eqn:Ef, (g a) eqn:Eg; simpl; rewrite ?Ef, ?Eg, IH;
    reflexivity.
Qed.

Lemma group_values_map {A : Type} (key : Z) (f : A -> Z) (d : A -> Q)
    (l : list A) :
  group_values key (map (fun r => (f r, d r)) l)
  = map d (filter (fun r => (f r =? key)%Z) l).
Proof.
  unfold group_values. induction l as [|a l IH]; simpl; [reflexivity|].
  destruct (f a =? key)%Z; simpl; now rewrite IH.
Qed.

Lemma hits_to_rec (rows : list bulk_row) (ts : list Z) :
  map rank (hits (map to_rec rows) ts)
  = map b_rank (filter (fun r => isin (b_item r) ts) rows).
Proof.
  unfold hits. induction rows as [|r rs IH]; simpl; [reflexivity|].
  destruct (isin (b_item r) ts); simpl; now rewrite IH.
Qed.

(** On ranks [b, b+1, ...] in row order, keeping [rank <= k] is taking
    a prefix. *)
Lemma rank_filter_firstn (rows : list bulk_row) :
  forall b k,
    map b_rank rows = ramp b (length rows) ->
    filter (fun r => (b_rank r <=? k)%Z) rows
    = firstn (Z.to_nat (k - b + 1)) rows.
Proof.
  induction rows as [|r rs IH]; intros b k Hr.
  - now rewrite firstn_nil.
  - cbn [length] in Hr. rewrite ramp_succ in Hr. cbn [map] in Hr.
    injection Hr as Hb Hrs. cbn [filter].
    rewrite (IH (b + 1)%Z k Hrs).
    destruct (Z.leb_spec (b_rank r) k) as [Hle|Hgt].
    + replace (Z.to_nat (k - b + 1)) with (S (Z.to_nat (k - (b + 1) + 1)))
        by lia.
      reflexivity.
    + replace (Z.to_nat (k - (b + 1) + 1)) with 0%nat by lia.
      replace (Z.to_nat (k - b + 1)) with 0%nat by lia.
      reflexivity.
Qed.

(** The rows of one list that the bulk form keeps under a cutoff are
    the rows the scalar form keeps. *)
Lemma bulk_cutoff_slice (rid : Z) (recs : list bulk_row) (k : option Z) :
  match k with Some k => (0 <= k)%Z | None => True end ->
  map rank (list_slice rid recs)
  = ramp 1 (length (list_slice rid recs)) ->
  map to_rec
    (filter (fun r => (LKRecID r =? rid)%Z)
       match k with
       | Some k => filter (fun r => (b_rank r <=? k)%Z) recs
       | None => recs
       end)
  = apply_cutoff k (list_slice rid recs).
Proof.
  intros Hk Hranks. unfold list_slice in *. fold to_rec in *.
  destruct k as [k|]; [|reflexivity].
  rewrite apply_cutoff_nonneg by assumption.
  rewrite filter_comm, firstn_map. f_equal.
  rewrite (rank_filter_firstn _ 1 k).
  - f_equal. lia.
  - rewrite map_map in Hranks. rewrite length_map in Hranks. exact Hranks.
Qed.

Lemma hits_empty_truth (l : list rec_row) : hits l [] = [].
Proof.
  unfold hits. induction l as [|r l IH]; simpl; [reflexivity|exact IH].
Qed.

(** ** Bulk against scalar *)

(** X25.  For a list whose rows all point to the truth identifier [tid],
    whose ranks are 1, 2, ... in row order, and a truth frame with no
    repeated row: when the list has a hit within the cutoff, the bulk series has
    an entry for it, equal to the scalar score; when it has none, the
    bulk series has no entry for it. *)
Theorem bulk_rbp_on_one_list (recs : list bulk_row) (truth : list truth_row)
    (rid tid : Z) (k : option Z) (patience : Q) :
  NoDup truth ->
  Forall (fun r => LKRecID r = rid -> LKTruthID r = tid) recs ->
  map rank (list_slice rid recs) = ramp 1 (length (list_slice rid recs)) ->
  match k with Some k => (0 <= k)%Z | None => True end ->
  let kept := hits (apply_cutoff k (list_slice rid recs))
                   (truth_slice tid truth) in
  (kept <> [] ->
   exists b s,
     series_get rid (_bulk_rbp recs truth k patience) = Some b /\
     rbp (list_slice rid recs) (truth_slice tid truth) k patience = Some s /\
     b == s) /\
  (kept = [] -> series_get rid (_bulk_rbp recs truth k patience) = None).
Proof.
  intros Hnd Htid Hranks Hk kept.
  set (cut := match k with
              | Some k => filter (fun r => (b_rank r <=? k)%Z) recs
              | None => recs
              end).
  assert (Hvals :
    group_values rid
      (map (fun g => (LKRecID (fst g), snd g))
         (map (fun r => (r, discount (b_rank r) patience))
            (inner_join cut truth)))
    = discount_s (map rank kept) patience).
  { rewrite map_map. cbn [fst snd].
    rewrite (group_values_map rid LKRecID
               (fun r => discount (b_rank r) patience)).
    rewrite inner_join_filter by assumption.
    rewrite filter_comm.
    rewrite (filter_ext_in (in_truth truth)
               (fun r => isin (b_item r) (truth_slice tid truth))).
    - subst kept. rewrite <- (bulk_cutoff_slice rid recs k Hk Hranks).
      rewrite hits_to_rec. unfold discount_s. now rewrite map_map.
    - intros r Hr. apply filter_In in Hr as [Hr Hrid].
      apply Z.eqb_eq in Hrid. rewrite in_truth_isin. f_equal. f_equal.
      assert (Hin : In r recs).
      { subst cut. destruct k; [apply filter_In in Hr as [Hr _]|]; exact Hr. }
      rewrite Forall_forall in Htid. now apply Htid. }
  unfold _bulk_rbp. fold cut. cbv zeta. rewrite series_get_scale.
  pose proof (groupby_sum_get rid
    (map (fun g => (LKRecID (fst g), snd g))
       (map (fun r => (r, discount (b_rank r) patience))
          (inner_join cut truth)))) as Hget.
  rewrite Hvals in Hget.
  split.
  - intros Hne.
    assert (Htne : truth_slice tid truth <> []).
    { intros E. apply Hne. subst kept. rewrite E. apply hits_empty_truth. }
    destruct (map rank kept) as [|r0 rest] eqn:Ek.
    { destruct kept; [congruence|discriminate]. }
    simpl in Hget. destruct Hget as [v [-> Hv]].
    rewrite (rbp_nonempty _ _ _ _ Htne). fold kept. rewrite Ek.
    do 2 eexists. split; [reflexivity|split; [reflexivity|]].
    rewrite Hv. reflexivity.
  - intros E. rewrite E in Hget. simpl in Hget. now rewrite Hget.
Qed.

(** C1.  On the tables [two_lists] and [two_truths], with no cutoff: the
    bulk series has no entry for list 1, whose truth set is nonempty
    and which has no hit, while the scalar RBP of that list is the
    defined score 0; for list 0 the two agree. *)
Theorem bulk_rbp_drops_list_without_hit :
  series_get 1
    (_bulk_rbp MetricsExample.two_lists MetricsExample.two_truths None PATIENCE)
  = None /\
  (exists s,
     rbp (list_slice 1 MetricsExample.two_lists)
         (truth_slice 1 MetricsExample.two_truths) None PATIENCE = Some s /\
     s == 0) /\
  (exists b s,
     series_get 0
       (_bulk_rbp MetricsExample.two_lists MetricsExample.two_truths None
          PATIENCE) = Some b /\
     rbp (list_slice 0 MetricsExample.two_lists)
         (truth_slice 0 MetricsExample.two_truths) None PATIENCE = Some s /\
     b == s).
Proof.
  split; [reflexivity|]. split.
  - eexists. split; [reflexivity|]. reflexivity.
  - do 2 eexists. split; [reflexivity|]. split; [reflexivity|]. reflexivity.
Qed.

End BulkProps.

(* ================================================================== *)
(** * Properties of the aggregator *)
(* ================================================================== *)

Module ComputeMetricsProps.
Import Script ComputeMetrics.
Local Open Scope string_scope.

Section Props.
Variables table scores : Type.
Variable glob : string -> list string.
Variable read_parquet : string -> exn + table.
Variable rla_compute : table -> table -> exn + scores.
Variable pd_concat : list (string * scores) -> scores.
Variable show_scores : scores -> string.
Variable surfaced : list exn -> exn.

#[local] Abbreviation run a :=
  (main glob read_parquet rla_compute pd_concat show_scores surfaced a tt).
#[local] Abbreviation task a := (eval_run read_parquet rla_compute (DATA a)).

Lemma failures_of_failed {A : Type} (rs : list (exn + A)) (e : exn) :
  In (inl e) rs -> failures rs <> [].
Proof.
  induction rs as [|r rs IH]; simpl; [tauto|].
  intros [->|Hin]; [discriminate|].
  destruct r; [discriminate|]. simpl. now apply IH.
Qed.

Lemma successes_all {A : Type} (rs : list (exn + A)) :
  failures rs = [] -> map inr (successes rs) = rs.
Proof.
  induction rs as [|[e|v] rs IH]; simpl; intros H;
    [reflexivity | discriminate | now rewrite IH].
Qed.

(** C3.  If the evaluation of one run file raises, [main] ends with
    an exception and has written no score artifact. *)
Theorem aggregator_all_or_nothing (a : args) (f : run_file) (e : exn) :
  In f (run_files glob a) ->
  task a f = inl e ->
  (exists e', outcome (run a) = inl e') /\ written (events (run a)) = [].
Proof.
  intros Hf He.
  assert (Hfail : failures (map (task a) (run_files glob a)) <> []).
  { apply (failures_of_failed _ e). rewrite <- He. now apply in_map. }
  unfold run_files in Hfail.
  unfold main, bind, log, emit, parallel_loop. simpl.
  destruct (failures _) as [|e1 es]; [congruence|].
  simpl. split; [eexists; reflexivity|reflexivity].
Qed.

(** The other direction: when every task succeeds and there is at
    least one, the artifact is the last thing [main] does. *)
Lemma aggregator_writes_after_all (a : args) :
  run_files glob a <> [] ->
  (forall f, In f (run_files glob a) -> exists v, task a f = inr v) ->
  outcome (run a) = inr tt /\
  exists tr p s, events (run a) = (tr ++ [ToParquet p s])%list /\
                 written tr = [].
Proof.
  intros Hne Hall.
  assert (Hok : failures (map (task a) (run_files glob a)) = []).
  { induction (run_files glob a) as [|f fs IH]; [reflexivity|].
    simpl. destruct (Hall f (or_introl eq_refl)) as [v ->]. simpl.
    destruct fs as [|f' fs]; [reflexivity|].
    apply IH; [discriminate|]. intros f0 H0. apply Hall. now right. }
  assert (Hdict : dict (successes (map (task a) (run_files glob a))) <> []).
  { pose proof (successes_all _ Hok) as Hs.
    destruct (successes _) as [|kv kvs].
    - simpl in Hs. symmetry in Hs. apply map_eq_nil in Hs. congruence.
    - unfold dict. simpl.
      assert (Hgrow : forall (ps d : list (string * scores)),
                 d <> [] ->
                 fold_left (fun d kv => dict_set (fst kv) (snd kv) d) ps d
                 <> []).
      { induction ps as [|q qs IHq]; intros d Hd; simpl; [assumption|].
        apply IHq. destruct d as [|[k' v'] d']; [congruence|]. simpl.
        destruct (fst q =? k'); discriminate. }
      apply Hgrow. discriminate. }
  unfold run_files in *.
  unfold main, bind, log, emit, parallel_loop, concat. simpl.
  match goal with
  | |- context [failures ?x] => destruct (failures x) as [|e1 es] eqn:E
  end.
  2: { exfalso. assert (H : e1 :: es = []) by (rewrite <- E; exact Hok).
       discriminate. }
  simpl.
  match goal with
  | |- context [dict ?x] => destruct (dict x) as [|kv kvs] eqn:E'
  end.
  1: { exfalso. exact (Hdict E'). }
  simpl. split; [reflexivity|].
  eexists [_; _; _; _], _, _. split; reflexivity.
Qed.
End Props.

Lemma aggregator_all_or_nothing_witness :
  (exists e', outcome (ComputeMetricsExample.run (mk_args "ml" "als" None))
              = inl e') /\
  written (events (ComputeMetricsExample.run (mk_args "ml" "als" None))) = [].
Proof.
  apply (aggregator_all_or_nothing string string
           ComputeMetricsExample.glob ComputeMetricsExample.read_parquet
           ComputeMetricsExample.rla_compute ComputeMetricsExample.pd_concat
           (fun s => s) ComputeMetricsExample.surfaced
           (mk_args "ml" "als" None)
           (mk_run_file "runs/ml-als" "recs-2.parquet")
           (OtherError "ArrowInvalid")).
  - vm_compute. right. left. reflexivity.
  - reflexivity.
Defined.

End ComputeMetricsProps.

(* ================================================================== *)
(** * Properties of the splitter *)
(* ================================================================== *)

Module SplitDataProps.
Import Script SplitData.
Local Open Scope string_scope.

Section Props.
Variables dataset ratings frame rng : Type.
Variable py_int : string -> option Z.
Variable init_file : string -> string -> string -> rng.
Variable datasets : string -> option dataset.
Variable get_ratings : dataset -> ratings.
Variable sample_users :
  ratings -> pyval -> pyval -> Z -> rng -> (exn + list frame) * rng.
Variable partition_users :
  ratings -> pyval -> Z -> rng -> (exn + list frame) * rng.

#[local] Abbreviation run a g :=
  (main py_int init_file datasets get_ratings sample_users partition_users
        a g).

Lemma written_app (t1 t2 : list (event frame)) :
  written (t1 ++ t2) = (written t1 ++ written t2)%list.
Proof. apply flat_map_app. Qed.

(** A loop whose every round succeeds and writes one artifact. *)
Lemma for_each_written {A : Type} (body : A -> M (event frame) rng unit)
    (artifact : A -> string) :
  (forall x g, outcome (body x g) = inr tt /\
               written (events (body x g)) = [artifact x]) ->
  forall xs g,
    outcome (for_each xs body g) = inr tt /\
    written (events (for_each xs body g)) = map artifact xs.
Proof.
  intros Hbody. induction xs as [|x xs IH]; intros g.
  - split; reflexivity.
  - destruct (Hbody x g) as [Ho Hw]. cbn [for_each]. unfold bind.
    destruct (body x g) as [[t1 [e|[]]] g1]; [discriminate|].
    destruct (IH g1) as [Ho' Hw'].
    destruct (for_each xs body g1) as [[t2 r2] g2].
    unfold outcome, events in *. cbn [fst snd] in *.
    split; [assumption|]. rewrite written_app, Hw, Hw'. reflexivity.
Qed.

Lemma enumerate_fst {A : Type} (s : nat) (xs : list A) :
  map fst (enumerate (Z.of_nat s) xs) = map Z.of_nat (seq s (length xs)).
Proof.
  revert s; induction xs as [|x xs IH]; intros s; [reflexivity|].
  cbn [enumerate map length seq]. f_equal.
  replace (Z.of_nat s + 1)%Z with (Z.of_nat (S s)) by lia. apply IH.
Qed.

Lemma truthy_parsed (s : string) (z : Z) :
  py_int "" = None -> py_int s = Some z -> truthy (PStr s) = true.
Proof.
  intros H0 H. simpl. destruct (s =? "") eqn:E; [|reflexivity].
  apply String.eqb_eq in E. subst. congruence.
Qed.

(** Run [main] symbolically: split on whatever the next step of the
    script inspects. *)
Ltac crunch_with tac :=
  repeat (cbn -[Z.gtb Z.eqb]; tac;
          match goal with
          | |- context [for_each ?xs ?b ?g0] =>
              destruct (for_each xs b g0) as [[? ?] ?] eqn:?
          | |- context [match ?x with _ => _ end] =>
              lazymatch x with
              | context [match _ with _ => _ end] => fail
              | _ => destruct x eqn:?
              end
          end).
Ltac crunch := crunch_with idtac.

(** C2.  In repeated-sampling mode with no [-R], [reps] is [None] when
    [max(reps, 1)] is evaluated: [main] ends with an exception and has
    written no artifact, whatever the other options and the libraries
    do. *)
Theorem sampling_without_reps_raises (a : args) (g : rng) :
  opt_p a = None -> opt_R a = None ->
  (exists e, outcome (run a g) = inl e) /\ written (events (run a g)) = [].
Proof.
  intros Hp HR. unfold main. rewrite Hp, HR.
  unfold bind, int_if_given, to_int, log, emit, put, ret, raise, max_1.
  crunch; (split; [eexists; reflexivity | reflexivity]).
Qed.

(** X26.  With [-R r], [r >= 1], and a sampler that yields a split at
    every call, repeated-sampling mode writes [test-0.parquet], ...,
    [test-(r-1).parquet]. *)
Lemma sampling_with_reps_writes (a : args) (us rs : string) (u r n : Z)
    (d : dataset) (g : rng) :
  py_int "" = None ->
  opt_p a = None ->
  opt_u a = Some us -> py_int us = Some u ->
  opt_R a = Some rs -> py_int rs = Some r -> (1 <= r)%Z ->
  py_int (opt_n a) = Some n ->
  datasets (DATASET a) = Some d ->
  (forall g0, exists t ts g1,
     sample_users (get_ratings d) (PInt 1) (PInt u) n g0
     = (inr (t :: ts), g1)) ->
  outcome (run a g) = inr tt /\
  written (events (run a g))
  = map (fun i => path_join (opt_o a) (test_name i)) (range r).
Proof.
  intros H0 Hp Hu Huu HR Hrr Hr Hn Hd Hsample.
  pose proof (truthy_parsed us u H0 Huu) as Tu.
  pose proof (truthy_parsed rs r H0 Hrr) as Tr.
  assert (Hre : (r =? 0)%Z = false) by (apply Z.eqb_neq; lia).
  assert (Hgt : (1 >? r)%Z = false).
  { rewrite Z.gtb_ltb. apply Z.ltb_ge. lia. }
  unfold main. rewrite Hp, Hu, HR. cbn [get].
  unfold int_if_given. rewrite Tu, Tr. unfold to_int.
  rewrite Huu, Hrr, Hn, Hd.
  unfold bind, log, emit, put, ret, raise, max_1, draw, next, to_parquet.
  cbn -[Z.gtb Z.eqb]. rewrite Hre, Hgt. cbn -[Z.gtb Z.eqb].
  match goal with
  | |- context [for_each ?l ?b ?g0] =>
      assert (Hbody : forall x g1,
                 outcome (b x g1) = inr tt /\
                 written (events (b x g1))
                 = [path_join (opt_o a) (test_name x)]);
      [ intros x g1; destruct (Hsample g1) as [t [ts [g2 E]]];
        rewrite E; split; reflexivity
      | destruct (for_each_written b _ Hbody l g0) as [Ho Hw];
        destruct (for_each l b g0) as [[t1 r1] g1] ]
  end.
  unfold outcome, events in *. cbn [fst snd] in *.
  split; [assumption|exact Hw].
Qed.

(** C9.  With both [-p P] ([P > 0]) and [-R R] ([R <> 0]), [main]
    behaves as it does without [-R]: same outcome, same final state,
    same artifacts.  When that run ends normally, the run with [-R]
    has logged that repetitions and partitions are incompatible, and,
    the library yielding [P] folds, the artifacts are
    [test-1.parquet], ..., [test-P.parquet]. *)
Theorem partition_mode_ignores_reps (a : args) (ps rs : string) (P R : Z)
    (g : rng) :
  py_int "" = None ->
  opt_p a = Some ps -> py_int ps = Some P -> (0 < P)%Z ->
  opt_R a = Some rs -> py_int rs = Some R -> R <> 0%Z ->
  (forall rt nu n g0 parts g1,
     sample_users rt (PInt P) nu n g0 = (inr parts, g1) ->
     length parts = Z.to_nat P) ->
  (forall rt n g0 parts g1,
     partition_users rt (PInt P) n g0 = (inr parts, g1) ->
     length parts = Z.to_nat P) ->
  outcome (run a g) = outcome (run (without_R a) g) /\
  final (run a g) = final (run (without_R a) g) /\
  written (events (run a g)) = written (events (run (without_R a) g)) /\
  (outcome (run (without_R a) g) = inr tt ->
   In (Log INFO "reps and partitions incompatible" []) (events (run a g)) /\
   written (events (run a g))
   = map (fun i => path_join (opt_o a) (test_name i))
         (map Z.of_nat (seq 1 (Z.to_nat P)))).
Proof.
  intros H0 Hp HpP HP HR HrR HR0 Hsamp Hpart.
  pose proof (truthy_parsed ps P H0 HpP) as Tp.
  pose proof (truthy_parsed rs R H0 HrR) as Tr.
  assert (HPe : (P =? 0)%Z = false) by (apply Z.eqb_neq; lia).
  assert (HRe : (R =? 0)%Z = false) by (apply Z.eqb_neq; lia).
  unfold main, without_R.
  cbn [DATASET opt_p opt_u opt_o opt_n opt_R].
  rewrite Hp, HR. cbn [get].
  unfold int_if_given. rewrite Tp, Tr. unfold to_int. rewrite HpP, HrR.
  unfold bind, log, emit, put, ret, raise, max_1, draw, to_parquet.
  crunch_with ltac:(rewrite ?HPe, ?HRe).
  all: subst; unfold outcome, events, final; cbn.
  all: repeat split; try reflexivity; try discriminate; try tauto.
  all: match goal with
       | H : for_each (enumerate 1 ?l) ?b ?g0 = _ |- _ =>
           assert (Hbody : forall x g1,
                      outcome (b x g1) = inr tt /\
                      written (events (b x g1))
                      = [path_join (opt_o a) (test_name (fst x))]);
           [ intros x g1; split; reflexivity
           | destruct (for_each_written b _ Hbody (enumerate 1 l) g0)
               as [_ Hw];
             rewrite H in Hw; unfold events in Hw; cbn [fst] in Hw ]
       end.
  all: change (flat_map _ ?t) with (written t); rewrite Hw.
  all: rewrite <- (map_map fst (fun i => path_join (opt_o a) (test_name i))).
  all: rewrite (enumerate_fst 1); do 3 f_equal.
  all: eauto.
Qed.
End Props.

(** The invocation [split-data.py -u 10 ml100k]: nothing is written and
    the run ends with [TypeError], raised by [max(None, 1)]. *)
Example sampling_without_reps_example :
  SplitDataExample.run
    (mk_args "ml100k" None (Some "10") "data-split" "5" None)
  = ([Log INFO "locating data set %s" ["ml100k"];
      Log INFO "loading ratings" [];
      Mkdir "data-split";
      Log INFO "writing to %s" ["data-split"]],
     inl TypeError, 0%nat).
Proof. reflexivity. Qed.

Lemma sampling_without_reps_raises_witness :
  (exists e,
     outcome (SplitDataExample.run
                (mk_args "ml100k" None (Some "10") "data-split" "5" None))
     = inl e) /\
  written (events (SplitDataExample.run
                     (mk_args "ml100k" None (Some "10") "data-split" "5" None)))
  = [].
Proof.
  apply (sampling_without_reps_raises unit unit nat nat
           SplitDataExample.py_int SplitDataExample.init_file
           SplitDataExample.datasets (fun d => d)
           SplitDataExample.sample_users SplitDataExample.partition_users
           (mk_args "ml100k" None (Some "10") "data-split" "5" None) 0%nat);
    reflexivity.
Defined.

(** The invocation [split-data.py -u 10 -R 3 ml100k] writes three
    artifacts, numbered from 0. *)
Example sampling_with_reps_example :
  outcome (SplitDataExample.run
             (mk_args "ml100k" None (Some "10") "data-split" "5" (Some "3")))
  = inr tt /\
  written (events (SplitDataExample.run
             (mk_args "ml100k" None (Some "10") "data-split" "5" (Some "3"))))
  = ["data-split/test-0.parquet"; "data-split/test-1.parquet";
     "data-split/test-2.parquet"].
Proof. split; reflexivity. Qed.

Lemma partition_mode_ignores_reps_witness :
  outcome (SplitDataExample.run
             (mk_args "ml100k" (Some "2") None "data-split" "5" (Some "3")))
  = outcome (SplitDataExample.run
               (without_R
                  (mk_args "ml100k" (Some "2") None "data-split" "5"
                     (Some "3")))) /\
  final (SplitDataExample.run
           (mk_args "ml100k" (Some "2") None "data-split" "5" (Some "3")))
  = final (SplitDataExample.run
             (without_R
                (mk_args "ml100k" (Some "2") None "data-split" "5"
                   (Some "3")))) /\
  written (events (SplitDataExample.run
             (mk_args "ml100k" (Some "2") None "data-split" "5" (Some "3"))))
  = written (events (SplitDataExample.run
               (without_R
                  (mk_args "ml100k" (Some "2") None "data-split" "5"
                     (Some "3"))))) /\
  (outcome (SplitDataExample.run
              (without_R
                 (mk_args "ml100k" (Some "2") None "data-split" "5"
                    (Some "3")))) = inr tt ->
   In (Log INFO "reps and partitions incompatible" [])
      (events (SplitDataExample.run
         (mk_args "ml100k" (Some "2") None "data-split" "5" (Some "3")))) /\
   written (events (SplitDataExample.run
      (mk_args "ml100k" (Some "2") None "data-split" "5" (Some "3"))))
   = map (fun i => path_join "data-split" (test_name i))
         (map Z.of_nat (seq 1 (Z.to_nat 2)))).
Proof.
  apply (partition_mode_ignores_reps unit unit nat nat
           SplitDataExample.py_int SplitDataExample.init_file
           SplitDataExample.datasets (fun d => d)
           SplitDataExample.sample_users SplitDataExample.partition_users
           (mk_args "ml100k" (Some "2") None "data-split" "5" (Some "3"))
           "2" "3" 2 3 0%nat);
    try reflexivity; try lia; try discriminate.
  - intros rt nu n g0 parts g1 H. injection H as <- _. reflexivity.
  - intros rt n g0 parts g1 H. injection H as <- _. reflexivity.
Defined.

(** That run ends normally, with the two folds written. *)
Example partition_mode_with_reps_example :
  SplitDataExample.run
    (mk_args "ml100k" (Some "2") None "data-split" "5" (Some "3"))
  = ([Log INFO "locating data set %s" ["ml100k"];
      Log INFO "loading ratings" [];
      Mkdir "data-split";
      Log INFO "writing to %s" ["data-split"];
      Log INFO "reps and partitions incompatible" [];
      Log INFO "computing %d partitions" ["2"];
      Log INFO "writing test set %d" ["1"];
      ToParquet "data-split/test-1.parquet" 0%nat;
      Log INFO "writing test set %d" ["2"];
      ToParquet "data-split/test-2.parquet" 1%nat],
     inr tt, 2%nat).
Proof. reflexivity. Qed.

End SplitDataProps.

(* ================================================================== *)
(** * More on the metric *)
(* ================================================================== *)

Module MetricsMore.
Import Metrics MetricsProps.

(** X6.  A cutoff at least as long as the list changes nothing. *)
Theorem rbp_long_cutoff (recs : list rec_row) (truth : list Z) (k : Z)
    (patience : Q) :
  (Z.of_nat (length recs) <= k)%Z ->
  rbp recs truth (Some k) patience = rbp recs truth None patience.
Proof.
  intros Hk. unfold rbp.
  replace (apply_cutoff (Some k) recs) with recs; [reflexivity|].
  rewrite apply_cutoff_nonneg by lia. symmetry. apply firstn_all2. lia.
Qed.

Lemma rbp_long_cutoff_witness :
  rbp [mk_rec 7 1; mk_rec 9 2] [7%Z] (Some 1000%Z) PATIENCE
  = rbp [mk_rec 7 1; mk_rec 9 2] [7%Z] None PATIENCE.
Proof.
  apply (rbp_long_cutoff [mk_rec 7 1; mk_rec 9 2] [7%Z] 1000 PATIENCE).
  simpl. lia.
Defined.

(** X7.  The truth frame counts only as a set of items: two frames with
    the same items, in any order and with any repetition, give the same
    result. *)
Theorem rbp_truth_as_set (recs : list rec_row) (truth truth' : list Z)
    (k : option Z) (patience : Q) :
  (forall x, In x truth <-> In x truth') ->
  rbp recs truth k patience = rbp recs truth' k patience.
Proof.
  intros Hsame. unfold rbp.
  assert (Hmask : forall l : list rec_row,
            map (fun r => isin (item r) truth) l
            = map (fun r => isin (item r) truth') l).
  { intros l. apply map_ext. intros r. apply eq_iff_eq_true.
    rewrite !isin_In. apply Hsame. }
  rewrite Hmask.
  destruct truth as [|t ts], truth' as [|t' ts']; try reflexivity.
  - exfalso. apply (Hsame t'). now left.
  - exfalso. apply (Hsame t). now left.
Qed.

Lemma rbp_truth_as_set_witness :
  rbp [mk_rec 7 1; mk_rec 9 2] [7; 4]%Z None PATIENCE
  = rbp [mk_rec 7 1; mk_rec 9 2] [4; 7; 4]%Z None PATIENCE.
Proof.
  apply (rbp_truth_as_set [mk_rec 7 1; mk_rec 9 2] [7; 4]%Z [4; 7; 4]%Z
           None PATIENCE).
  intros x. simpl. tauto.
Defined.

End MetricsMore.

(* ================================================================== *)
(** * More on the bulk form *)
(* ================================================================== *)

Module BulkMore.
Import Metrics MetricsProps BulkProps.

(** The rows of one list among the joined rows, and the values the
    group-by adds up for it. *)
Lemma filter_flat_map_copies {A B : Type} (f : A -> bool) (g : A -> list B)
    (l : list A) :
  filter f (flat_map (fun r => map (fun _ => r) (g r)) l)
  = flat_map (fun r => map (fun _ => r) (g r)) (filter f l).
Proof.
  induction l as [|a l IH]; simpl; [reflexivity|].
  rewrite filter_app, IH. destruct (f a) eqn:E; simpl.
  - f_equal. induction (g a) as [|b bs IHb]; simpl; [reflexivity|].
    now rewrite E, IHb.
  - rewrite <- (app_nil_l (flat_map _ (filter f l))) at 2. f_equal.
    induction (g a) as [|b bs IHb]; simpl; [reflexivity|].
    now rewrite E.
Qed.

Lemma bulk_group_values (recs : list bulk_row) (truth : list truth_row)
    (rid : Z) (k : option Z) (patience : Q) :
  group_values rid
    (map (fun g => (LKRecID (fst g), snd g))
       (map (fun r => (r, discount (b_rank r) patience))
          (inner_join (bulk_cut k recs) truth)))
  = map (fun r => discount (b_rank r) patience)
      (flat_map (fun r => map (fun _ => r) (filter (key_matches r) truth))
         (filter (fun r => (LKRecID r =? rid)%Z) (bulk_cut k recs))).
Proof.
  rewrite map_map. cbn [fst snd].
  rewrite (group_values_map rid LKRecID
             (fun r => discount (b_rank r) patience)).
  unfold inner_join. now rewrite filter_flat_map_copies.
Qed.

Lemma bulk_get (recs : list bulk_row) (truth : list truth_row)
    (rid : Z) (k : option Z) (patience : Q) :
  series_get rid (_bulk_rbp recs truth k patience)
  = option_map (fun v => v * (1 - patience))
      (series_get rid
         (groupby_sum
            (map (fun g => (LKRecID (fst g), snd g))
               (map (fun r => (r, discount (b_rank r) patience))
                  (inner_join (bulk_cut k recs) truth))))).
Proof. unfold _bulk_rbp. cbv zeta. apply series_get_scale. Qed.

Lemma copies_sum (patience : Q) (r : bulk_row) (ts : list truth_row) :
  np_sum (map (fun r => discount (b_rank r) patience) (map (fun _ => r) ts))
  == inject_Z (Z.of_nat (length ts)) * discount (b_rank r) patience.
Proof.
  induction ts as [|t ts IH].
  - simpl. rewrite np_sum_nil. ring.
  - cbn [map length]. rewrite np_sum_cons, IH.
    rewrite Nat2Z.inj_succ. unfold Z.succ. rewrite inject_Z_plus.
    change (inject_Z 1) with 1. ring.
Qed.

Lemma joined_sum (patience : Q) (truth : list truth_row)
    (rows : list bulk_row) :
  np_sum
    (map (fun r => discount (b_rank r) patience)
       (flat_map (fun r => map (fun _ => r) (filter (key_matches r) truth))
          rows))
  == np_sum
       (map (fun r => inject_Z (Z.of_nat (multiplicity truth r))
                      * discount (b_rank r) patience) rows).
Proof.
  induction rows as [|r rows IH]; simpl.
  - reflexivity.
  - rewrite map_app, np_sum_app, np_sum_cons, copies_sum, IH. reflexivity.
Qed.

(** X10.  The bulk entry of a list, when there is one, is [1 - patience]
    times the sum, over the rows of the list within the cutoff, of
    [patience^rank] counted once per truth row with the row's key; there
    is no entry exactly when no such row has a truth row. *)
Theorem bulk_rbp_counts_truth_rows (recs : list bulk_row)
    (truth : list truth_row) (rid : Z) (k : option Z) (patience : Q) :
  let rows := filter (fun r => (LKRecID r =? rid)%Z) (bulk_cut k recs) in
  match series_get rid (_bulk_rbp recs truth k patience) with
  | Some b =>
      b == (1 - patience)
           * np_sum
               (map (fun r => inject_Z (Z.of_nat (multiplicity truth r))
                              * discount (b_rank r) patience) rows) /\
      Exists (fun r => multiplicity truth r <> 0%nat) rows
  | None => Forall (fun r => multiplicity truth r = 0%nat) rows
  end.
Proof.
  intros rows. rewrite bulk_get.
  pose proof (groupby_sum_get rid
    (map (fun g => (LKRecID (fst g), snd g))
       (map (fun r => (r, discount (b_rank r) patience))
          (inner_join (bulk_cut k recs) truth)))) as Hget.
  rewrite bulk_group_values in Hget. fold rows in Hget.
  destruct (map _ (flat_map _ rows)) as [|v vs] eqn:E.
  - rewrite Hget. simpl. apply map_eq_nil in E.
    clear Hget. induction rows as [|r rs IH]; [constructor|].
    simpl in E. apply app_eq_nil in E as [Er Ers].
    constructor; [|now apply IH].
    unfold multiplicity. apply map_eq_nil in Er. now rewrite Er.
  - destruct Hget as [b [-> Hb]]. simpl. split.
    + rewrite Hb, <- E, joined_sum. ring.
    + clear Hb. revert E. induction rows as [|r rs IH]; [discriminate|].
      simpl. intros E.
      destruct (filter (key_matches r) truth) as [|t ts] eqn:Et.
      * right. apply IH. exact E.
      * left. unfold multiplicity. rewrite Et. discriminate.
Qed.

Lemma series_scale_keys (c : Q) (s : series) :
  map fst (map (fun kv => (fst kv, snd kv * c)) s) = map fst s.
Proof. rewrite map_map. reflexivity. Qed.

Lemma groupby_sum_sorted (rows : list (Z * Q)) : keys_sorted (groupby_sum rows).
Proof.
  unfold groupby_sum.
  assert (H : forall acc, keys_sorted acc ->
            keys_sorted
              (fold_left (fun acc kv => series_add (fst kv) (snd kv) acc)
                 rows acc)).
  { induction rows as [|kv rows IH]; intros acc Hacc; simpl; [assumption|].
    apply IH. now apply series_add_sorted. }
  apply H. constructor.
Qed.

Lemma groupby_sum_keys (rows : list (Z * Q)) (x : Z) :
  In x (map fst (groupby_sum rows)) -> In x (map fst rows).
Proof.
  unfold groupby_sum.
  assert (H : forall acc,
            In x (map fst
                    (fold_left
                       (fun acc kv => series_add (fst kv) (snd kv) acc)
                       rows acc)) ->
            In x (map fst acc) \/ In x (map fst rows)).
  { induction rows as [|kv rows IH]; intros acc Hin; simpl in *; [auto|].
    destruct (IH _ Hin) as [Hacc|Hrows]; [|auto].
    apply series_add_keys in Hacc as [->|Hacc]; auto. }
  intros Hin. destruct (H [] Hin) as [[]|Hrows]. exact Hrows.
Qed.

(** X12.  The bulk series is sorted by [LKRecID] with no key repeated,
    and every key is the identifier of a list of the recommendation
    frame. *)
Theorem bulk_rbp_keys (recs : list bulk_row) (truth : list truth_row)
    (k : option Z) (patience : Q) :
  StronglySorted Z.lt (map fst (_bulk_rbp recs truth k patience)) /\
  NoDup (map fst (_bulk_rbp recs truth k patience)) /\
  incl (map fst (_bulk_rbp recs truth k patience)) (map LKRecID recs).
Proof.
  unfold _bulk_rbp. cbv zeta. rewrite series_scale_keys.
  fold (bulk_cut k recs).
  set (rows := map (fun g => (LKRecID (fst g), snd g))
                 (map (fun r => (r, discount (b_rank r) patience))
                    (inner_join (bulk_cut k recs) truth))).
  pose proof (groupby_sum_sorted rows) as Hs. unfold keys_sorted in Hs.
  split; [exact Hs|]. split.
  - clear -Hs. induction Hs as [|x l _ IH Hx]; constructor; [|exact IH].
    intros Hin. rewrite Forall_forall in Hx. specialize (Hx x Hin). lia.
  - intros x Hx. apply groupby_sum_keys in Hx. subst rows.
    rewrite !map_map in Hx. cbn [fst] in Hx.
    apply in_map_iff in Hx as [r [<- Hr]]. apply in_map.
    unfold inner_join in Hr. apply in_flat_map in Hr as [r' [Hr' Hin]].
    apply in_map_iff in Hin as [_ [<- _]].
    destruct k; [apply filter_In in Hr' as [Hr' _]|]; exact Hr'.
Qed.

Lemma bulk_rbp_on_one_list_witness :
  (hits (apply_cutoff (Some 1%Z) (list_slice 0 MetricsExample.two_lists))
        (truth_slice 0 MetricsExample.two_truths) <> [] ->
   exists b s,
     series_get 0
       (_bulk_rbp MetricsExample.two_lists MetricsExample.two_truths
          (Some 1%Z) PATIENCE) = Some b /\
     rbp (list_slice 0 MetricsExample.two_lists)
         (truth_slice 0 MetricsExample.two_truths) (Some 1%Z) PATIENCE
     = Some s /\
     b == s) /\
  (hits (apply_cutoff (Some 1%Z) (list_slice 0 MetricsExample.two_lists))
        (truth_slice 0 MetricsExample.two_truths) = [] ->
   series_get 0
     (_bulk_rbp MetricsExample.two_lists MetricsExample.two_truths
        (Some 1%Z) PATIENCE) = None).
Proof.
  apply (bulk_rbp_on_one_list MetricsExample.two_lists
           MetricsExample.two_truths 0 0 (Some 1%Z) PATIENCE).
  - repeat constructor; simpl; intuition discriminate.
  - repeat constructor; simpl; intros; try reflexivity; discriminate.
  - reflexivity.
  - simpl. lia.
Defined.

End BulkMore.

(* ================================================================== *)
(** * More on the splitter *)
(* ================================================================== *)

Module SplitDataMore.
Import Script SplitData SplitDataProps.
Local Open Scope string_scope.

Section Props.
Variables dataset ratings frame rng : Type.
Variable py_int : string -> option Z.
Variable init_file : string -> string -> string -> rng.
Variable datasets : string -> option dataset.
Variable get_ratings : dataset -> ratings.
Variable sample_users :
  ratings -> pyval -> pyval -> Z -> rng -> (exn + list frame) * rng.
Variable partition_users :
  ratings -> pyval -> Z -> rng -> (exn + list frame) * rng.

#[local] Abbreviation run a g :=
  (main py_int init_file datasets get_ratings sample_users partition_users
        a g).

Ltac split_on_next tac :=
  repeat (cbn -[Z.gtb Z.eqb String.eqb]; tac;
          match goal with
          | |- context [for_each ?xs ?b ?g0] =>
              destruct (for_each xs b g0) as [[? ?] ?] eqn:?
          | |- context [match ?x with _ => _ end] =>
              lazymatch x with
              | context [match _ with _ => _ end] => fail
              | _ => destruct x eqn:?
              end
          end).

Ltac unfold_script :=
  unfold main, bind, int_if_given, to_int, log, emit, put, ret, raise,
    max_1, draw, next, to_parquet.

(** X13.  With neither [-p] nor [-u], and [-R] and [-n] readable,
    [main] logs one error and exits with status 2: nothing is seeded,
    created or written. *)
Theorem neither_p_nor_u_exits_2 (a : args) (g : rng) (n : Z) :
  opt_p a = None -> opt_u a = None ->
  parses py_int (opt_R a) -> py_int (opt_n a) = Some n ->
  run a g
  = ([Log ERROR "must specify at least 1 of -p and -u" []],
     inl (SystemExit 2), g).
Proof.
  intros Hp Hu HR Hn. unfold_script. rewrite Hp, Hu, Hn.
  destruct (opt_R a) as [rs|]; cbn [get truthy].
  - destruct HR as [->|[r Hr]].
    + reflexivity.
    + rewrite Hr. destruct (rs =? ""); reflexivity.
  - reflexivity.
Qed.

(** X14.  A numeric option that [int] rejects ends [main] with
    [ValueError] before anything is logged, seeded or written. *)
Theorem unreadable_number_raises (a : args) (g : rng) :
  (exists s, opt_p a = Some s /\ s <> "" /\ py_int s = None) \/
  (exists s, opt_u a = Some s /\ s <> "" /\ py_int s = None) \/
  (exists s, opt_R a = Some s /\ s <> "" /\ py_int s = None) \/
  py_int (opt_n a) = None ->
  run a g = ([], inl ValueError, g).
Proof.
  intros H. unfold_script.
  destruct (opt_p a) as [ps|], (opt_u a) as [us|], (opt_R a) as [rs|].
  all: split_on_next idtac; try reflexivity; exfalso.
  all: repeat match goal with
         | E : negb (_ =? "") = false |- _ =>
             apply negb_false_iff, String.eqb_eq in E; subst
         end.
  all: destruct H as [[? [E [Hne Hs]]]|[[? [E [Hne Hs]]]|[[? [E [Hne Hs]]]|Hn]]];
         try discriminate; try (injection E as <-); congruence.
Qed.

(** X15.  What a run logs and writes, and how it ends, does not depend
    on the state the generator is in when [main] starts; nor does the
    state it leaves, unless the run stops before seeding. *)
Theorem run_independent_of_initial_state (a : args) (g1 g2 : rng) :
  events (run a g1) = events (run a g2) /\
  outcome (run a g1) = outcome (run a g2) /\
  (final (run a g1) = final (run a g2) \/
   (final (run a g1) = g1 /\ final (run a g2) = g2)).
Proof.
  unfold_script.
  destruct (opt_p a) as [ps|], (opt_u a) as [us|], (opt_R a) as [rs|].
  all: split_on_next idtac.
  all: unfold events, outcome, final; cbn [fst snd]; auto.
Qed.

Lemma artifacts_app (t1 t2 : list (event frame)) :
  artifacts (t1 ++ t2) = (artifacts t1 ++ artifacts t2)%list.
Proof. apply flat_map_app. Qed.

(** A loop whose every round succeeds, leaves the state alone and
    writes one artifact. *)
Lemma for_each_artifacts {A : Type} (body : A -> M (event frame) rng unit)
    (artifact : A -> string * frame) :
  (forall x g, outcome (body x g) = inr tt /\ final (body x g) = g /\
               artifacts (events (body x g)) = [artifact x]) ->
  forall xs g,
    outcome (for_each xs body g) = inr tt /\
    final (for_each xs body g) = g /\
    artifacts (events (for_each xs body g)) = map artifact xs.
Proof.
  intros Hbody. induction xs as [|x xs IH]; intros g.
  - repeat split; reflexivity.
  - destruct (Hbody x g) as [Ho [Hf Hw]]. cbn [for_each]. unfold bind.
    destruct (body x g) as [[t1 [e|[]]] g1]; [discriminate|].
    unfold final in Hf. cbn [snd] in Hf. subst g1.
    destruct (IH g) as [Ho' [Hf' Hw']].
    destruct (for_each xs body g) as [[t2 r2] g2].
    unfold outcome, events, final in *. cbn [fst snd] in *.
    repeat split; try assumption.
    rewrite artifacts_app, Hw, Hw'. reflexivity.
Qed.

(** X16.  Partition mode, everything readable and the data set known:
    the generator is seeded from the data set name, the library is
    called once ([sample_users] when [-u] is a nonzero number,
    [partition_users] when [-u] is absent), and each fold it yields is
    written, in order, to [test-1.parquet], [test-2.parquet], ...; the
    run ends normally in the state the library left. *)
Theorem partition_mode_writes_folds (a : args) (g g' : rng) (ps : string)
    (P n : Z) (d : dataset) (parts : list frame) :
  py_int "" = None ->
  opt_p a = Some ps -> py_int ps = Some P -> P <> 0%Z ->
  parses py_int (opt_R a) -> py_int (opt_n a) = Some n ->
  datasets (DATASET a) = Some d ->
  match opt_u a with
  | None =>
      partition_users (get_ratings d) (PInt P) n
        (init_file "params.yaml" "split-data" (DATASET a)) = (inr parts, g')
  | Some us =>
      exists U, py_int us = Some U /\ U <> 0%Z /\
        sample_users (get_ratings d) (PInt P) (PInt U) n
          (init_file "params.yaml" "split-data" (DATASET a)) = (inr parts, g')
  end ->
  outcome (run a g) = inr tt /\
  final (run a g) = g' /\
  artifacts (events (run a g))
  = map (fun it => (path_join (opt_o a) (test_name (fst it)), snd it))
        (enumerate 1 parts).
Proof.
  intros H0 Hp HpP HP HR Hn Hd Hcall.
  pose proof (truthy_parsed py_int ps P H0 HpP) as Tp.
  assert (HPe : (P =? 0)%Z = false) by (apply Z.eqb_neq; lia).
  assert (Eps : (ps =? "") = false).
  { destruct (ps =? "") eqn:E; [|reflexivity].
    apply String.eqb_eq in E. subst. congruence. }
  unfold_script. rewrite Hp. cbn [get truthy].
  destruct (opt_u a) as [us|].
  - destruct Hcall as [U [HuU [HU Hcall]]].
    assert (HUe : (U =? 0)%Z = false) by (apply Z.eqb_neq; lia).
    assert (Eus : (us =? "") = false).
    { destruct (us =? "") eqn:E; [|reflexivity].
      apply String.eqb_eq in E. subst. congruence. }
    destruct (opt_R a) as [rs|]; [destruct HR as [->|[r Hr]]|].
    all: split_on_next
           ltac:(rewrite ?Eps, ?Eus, ?HpP, ?HuU, ?Hn, ?Hd, ?HPe, ?HUe,
                   ?Hcall, ?Hr).
    all: try congruence.
    all: try solve [exfalso;
                    repeat match goal with
                           | E : negb _ = _ |- _ => cbn in E; revert E
                           end;
                    intros; congruence].
    all: match goal with
         | E : for_each ?xs ?b ?g0 = _ |- _ =>
             assert (Hbody : forall x g1,
                        outcome (b x g1) = inr tt /\ final (b x g1) = g1 /\
                        artifacts (events (b x g1))
                        = [(path_join (opt_o a) (test_name (fst x)), snd x)])
               by (intros x g1; repeat split; reflexivity);
             destruct (for_each_artifacts b _ Hbody xs g0) as [Ho [Hf Hw]];
             rewrite E in Ho, Hf, Hw
         end.
    all: unfold outcome, events, final in *; cbn [fst snd] in *.
    all: repeat split; try assumption.
    all: cbn [artifacts flat_map app]; rewrite ?artifacts_app; exact Hw.
  - destruct (opt_R a) as [rs|]; [destruct HR as [->|[r Hr]]|].
    all: split_on_next
           ltac:(rewrite ?Eps, ?HpP, ?Hn, ?Hd, ?HPe, ?Hcall, ?Hr).
    all: try congruence.
    all: try solve [exfalso;
                    repeat match goal with
                           | E : negb _ = _ |- _ => cbn in E; revert E
                           end;
                    intros; congruence].
    all: match goal with
         | E : for_each ?xs ?b ?g0 = _ |- _ =>
             assert (Hbody : forall x g1,
                        outcome (b x g1) = inr tt /\ final (b x g1) = g1 /\
                        artifacts (events (b x g1))
                        = [(path_join (opt_o a) (test_name (fst x)), snd x)])
               by (intros x g1; repeat split; reflexivity);
             destruct (for_each_artifacts b _ Hbody xs g0) as [Ho [Hf Hw]];
             rewrite E in Ho, Hf, Hw
         end.
    all: unfold outcome, events, final in *; cbn [fst snd] in *.
    all: repeat split; try assumption.
    all: cbn [artifacts flat_map app]; rewrite ?artifacts_app; exact Hw.
Qed.

(** X17.  Repeated-sampling mode with [-R r], [r <= 0]: one split is
    drawn and written, to [test.parquet] when [r] is 0 and to
    [test-0.parquet] when it is negative. *)
Theorem sampling_nonpositive_reps (a : args) (g g' : rng) (us rs : string)
    (U R n : Z) (d : dataset) (t : frame) (ts : list frame) :
  py_int "" = None ->
  opt_p a = None ->
  opt_u a = Some us -> py_int us = Some U ->
  opt_R a = Some rs -> py_int rs = Some R -> (R <= 0)%Z ->
  py_int (opt_n a) = Some n ->
  datasets (DATASET a) = Some d ->
  sample_users (get_ratings d) (PInt 1) (PInt U) n
    (init_file "params.yaml" "split-data" (DATASET a)) = (inr (t :: ts), g') ->
  outcome (run a g) = inr tt /\
  final (run a g) = g' /\
  artifacts (events (run a g))
  = [(path_join (opt_o a)
        (if (R =? 0)%Z then "test.parquet" else "test-0.parquet"), t)].
Proof.
  intros H0 Hp Hu HuU HR HrR HR0 Hn Hd Hcall.
  assert (Eus : (us =? "") = false).
  { destruct (us =? "") eqn:E; [|reflexivity].
    apply String.eqb_eq in E. subst. congruence. }
  assert (Ers : (rs =? "") = false).
  { destruct (rs =? "") eqn:E; [|reflexivity].
    apply String.eqb_eq in E. subst. congruence. }
  assert (Hgt : (1 >? R)%Z = true).
  { rewrite Z.gtb_ltb. apply Z.ltb_lt. lia. }
  unfold_script. rewrite Hp, Hu, HR. cbn [get truthy].
  rewrite Eus, Ers, HuU, HrR, Hn, Hd. cbn -[Z.gtb Z.eqb].
  rewrite Hgt. cbn -[Z.gtb Z.eqb].
  change (Pos.to_nat 1) with 1%nat. cbn -[Z.gtb Z.eqb].
  unfold bind, ret. rewrite Hcall.
  destruct (R =? 0)%Z; cbn; repeat split; reflexivity.
Qed.

(** X18.  When the options are readable and the data set name is not in
    the registry, [main] seeds the generator, logs that it is locating
    the data set and ends with [AttributeError]: no directory is
    created and nothing is written. *)
Theorem unknown_dataset_raises (a : args) (g : rng) (n : Z) :
  parses py_int (opt_p a) -> parses py_int (opt_u a) ->
  parses py_int (opt_R a) -> py_int (opt_n a) = Some n ->
  opt_p a <> None \/ opt_u a <> None ->
  datasets (DATASET a) = None ->
  run a g
  = ([Log INFO "locating data set %s" [DATASET a]],
     inl AttributeError,
     init_file "params.yaml" "split-data" (DATASET a)).
Proof.
  intros Hp Hu HR Hn Hpu Hd. unfold_script. rewrite Hn, Hd.
  destruct (opt_p a) as [ps|], (opt_u a) as [us|], (opt_R a) as [rs|].
  all: cbn [parses] in Hp, Hu, HR.
  all: repeat match goal with
         | H : _ = "" \/ (exists z, _) |- _ => destruct H as [->|[? H]]
         end.
  all: cbn [get truthy String.eqb negb];
       repeat match goal with
         | H : py_int ?s = Some _ |- _ =>
             progress rewrite ?H; destruct (s =? "")
         end.
  all: cbn; rewrite ?Hn, ?Hd; try reflexivity.
  all: try (destruct Hpu; congruence).
Qed.

(** X19.  With [-u] given, a [-p] that is empty or reads as 0 selects
    repeated-sampling mode: the run is the one without [-p]. *)
Theorem zero_partitions_is_sampling_mode (a : args) (g : rng)
    (ps us : string) :
  opt_p a = Some ps -> ps = "" \/ py_int ps = Some 0%Z ->
  opt_u a = Some us ->
  run a g = run (without_p a) g.
Proof.
  intros Hp Hps Hu. unfold_script. unfold without_p.
  cbn [DATASET opt_p opt_u opt_o opt_n opt_R].
  rewrite Hp, Hu. cbn [get truthy].
  destruct Hps as [->|Hz].
  - split_on_next idtac.
    all: first [ reflexivity
               | congruence
               | exfalso;
                 repeat match goal with
                        | E : negb _ = _ |- _ => cbn in E; revert E
                        end;
                 intros; congruence ].
  - split_on_next ltac:(rewrite ?Hz).
    all: first [ reflexivity
               | congruence
               | exfalso;
                 repeat match goal with
                        | E : negb _ = _ |- _ => cbn in E; revert E
                        end;
                 intros; congruence ].
Qed.

End Props.

Lemma neither_p_nor_u_exits_2_witness :
  SplitDataExample.run (mk_args "ml100k" None None "data-split" "5" None)
  = ([Log ERROR "must specify at least 1 of -p and -u" []],
     inl (SystemExit 2), 0%nat).
Proof.
  apply (neither_p_nor_u_exits_2 unit unit nat nat
           SplitDataExample.py_int SplitDataExample.init_file
           SplitDataExample.datasets (fun d => d)
           SplitDataExample.sample_users SplitDataExample.partition_users
           (mk_args "ml100k" None None "data-split" "5" None) 0%nat 5);
    try reflexivity; try exact I.
Defined.

Lemma unreadable_number_raises_witness :
  SplitDataExample.run
    (mk_args "ml100k" (Some "2") None "data-split" "five" None)
  = ([], inl ValueError, 0%nat).
Proof.
  apply (unreadable_number_raises unit unit nat nat
           SplitDataExample.py_int SplitDataExample.init_file
           SplitDataExample.datasets (fun d => d)
           SplitDataExample.sample_users SplitDataExample.partition_users
           (mk_args "ml100k" (Some "2") None "data-split" "five" None) 0%nat).
  right. right. right. reflexivity.
Defined.

Lemma partition_mode_writes_folds_witness :
  outcome (SplitDataExample.run
             (mk_args "ml100k" (Some "2") None "data-split" "5" None))
  = inr tt /\
  final (SplitDataExample.run
           (mk_args "ml100k" (Some "2") None "data-split" "5" None))
  = 2%nat /\
  artifacts (events (SplitDataExample.run
               (mk_args "ml100k" (Some "2") None "data-split" "5" None)))
  = map (fun it => (path_join "data-split" (test_name (fst it)), snd it))
        (enumerate 1 [0%nat; 1%nat]).
Proof.
  apply (partition_mode_writes_folds unit unit nat nat
           SplitDataExample.py_int SplitDataExample.init_file
           SplitDataExample.datasets (fun d => d)
           SplitDataExample.sample_users SplitDataExample.partition_users
           (mk_args "ml100k" (Some "2") None "data-split" "5" None)
           0%nat 2%nat "2" 2 5 tt [0%nat; 1%nat]);
    try reflexivity; try discriminate; try exact I.
Defined.

Lemma sampling_nonpositive_reps_witness :
  outcome (SplitDataExample.run
             (mk_args "ml100k" None (Some "10") "data-split" "5" (Some "0")))
  = inr tt /\
  final (SplitDataExample.run
           (mk_args "ml100k" None (Some "10") "data-split" "5" (Some "0")))
  = 1%nat /\
  artifacts (events (SplitDataExample.run
               (mk_args "ml100k" None (Some "10") "data-split" "5"
                  (Some "0"))))
  = [(path_join "data-split" "test.parquet", 0%nat)].
Proof.
  apply (sampling_nonpositive_reps unit unit nat nat
           SplitDataExample.py_int SplitDataExample.init_file
           SplitDataExample.datasets (fun d => d)
           SplitDataExample.sample_users SplitDataExample.partition_users
           (mk_args "ml100k" None (Some "10") "data-split" "5" (Some "0"))
           0%nat 1%nat "10" "0" 10 0 5 tt 0%nat []);
    try reflexivity; try lia.
Defined.

Lemma unknown_dataset_raises_witness :
  SplitDataExample.run (mk_args "nope" (Some "2") None "data-split" "5" None)
  = ([Log INFO "locating data set %s" ["nope"]], inl AttributeError, 0%nat).
Proof.
  apply (unknown_dataset_raises unit unit nat nat
           SplitDataExample.py_int SplitDataExample.init_file
           SplitDataExample.datasets (fun d => d)
           SplitDataExample.sample_users SplitDataExample.partition_users
           (mk_args "nope" (Some "2") None "data-split" "5" None) 0%nat 5);
    try reflexivity; try exact I.
  - right. exists 2%Z. reflexivity.
  - left. discriminate.
Defined.

Lemma zero_partitions_is_sampling_mode_witness :
  SplitDataExample.run
    (mk_args "ml100k" (Some "0") (Some "10") "data-split" "5" (Some "2"))
  = SplitDataExample.run
      (without_p
         (mk_args "ml100k" (Some "0") (Some "10") "data-split" "5"
            (Some "2"))).
Proof.
  apply (zero_partitions_is_sampling_mode unit unit nat nat
           SplitDataExample.py_int SplitDataExample.init_file
           SplitDataExample.datasets (fun d => d)
           SplitDataExample.sample_users SplitDataExample.partition_users
           (mk_args "ml100k" (Some "0") (Some "10") "data-split" "5"
              (Some "2"))
           0%nat "0" "10");
    try reflexivity.
  right. reflexivity.
Defined.

Lemma sampling_with_reps_writes_witness :
  outcome (SplitDataExample.run
             (mk_args "ml100k" None (Some "10") "data-split" "5" (Some "3")))
  = inr tt /\
  written (events (SplitDataExample.run
             (mk_args "ml100k" None (Some "10") "data-split" "5" (Some "3"))))
  = map (fun i => path_join "data-split" (test_name i)) (range 3).
Proof.
  apply (sampling_with_reps_writes unit unit nat nat
           SplitDataExample.py_int SplitDataExample.init_file
           SplitDataExample.datasets (fun d => d)
           SplitDataExample.sample_users SplitDataExample.partition_users
           (mk_args "ml100k" None (Some "10") "data-split" "5" (Some "3"))
           "10" "3" 10 3 5 tt 0%nat);
    try reflexivity; try lia.
  intros g0. exists g0, [], (g0 + 1)%nat. reflexivity.
Defined.

End SplitDataMore.

(* ================================================================== *)
(** * More on the aggregator *)
(* ================================================================== *)

Module ComputeMetricsMore.
Import Script ComputeMetrics ComputeMetricsProps.
Local Open Scope string_scope.

(** ** The file name pattern *)

Lemma prefix_app (p t : string) : prefix p (p ++ t) = true.
Proof.
  induction p as [|c p IH]; simpl.
  - now destruct t.
  - destruct (ascii_dec c c); [exact IH|congruence].
Qed.

Lemma prefix_split (p s : string) :
  prefix p s = true -> exists t, s = p ++ t.
Proof.
  revert s. induction p as [|c p IH]; intros s H.
  - exists s. reflexivity.
  - destruct s as [|c' s]; simpl in H; [discriminate|].
    destruct (ascii_dec c c') as [<-|]; [|discriminate].
    destruct (IH s H) as [t ->]. exists t. reflexivity.
Qed.

Lemma substring_all (s : string) : substring 0 (String.length s) s = s.
Proof. induction s as [|c s IH]; simpl; [reflexivity|now rewrite IH]. Qed.

Lemma substring_drop (p t : string) :
  substring (String.length p) (String.length (p ++ t) - String.length p)
    (p ++ t) = t.
Proof.
  induction p as [|c p IH]; simpl.
  - rewrite Nat.sub_0_r. apply substring_all.
  - exact IH.
Qed.

Lemma span_digits_spec (s d r : string) :
  span_digits s = (d, r) ->
  s = d ++ r /\ all_digits d = true /\
  match r with
  | EmptyString => True
  | String c _ => is_digit c = false
  end.
Proof.
  revert d r. induction s as [|c s IH]; intros d r H; simpl in H.
  - injection H as <- <-. repeat split.
  - destruct (is_digit c) eqn:Ec.
    + destruct (span_digits s) as [d' r'] eqn:Es.
      injection H as <- <-.
      destruct (IH d' r' eq_refl) as [-> [Hd Hr]].
      repeat split; [|exact Hr]. simpl. now rewrite Ec, Hd.
    + injection H as <- <-. repeat split. exact Ec.
Qed.

Lemma span_digits_app (d r : string) :
  all_digits d = true ->
  match r with
  | EmptyString => True
  | String c _ => is_digit c = false
  end ->
  span_digits (d ++ r) = (d, r).
Proof.
  intros Hd Hr. induction d as [|c d IH]; simpl.
  - destruct r as [|c r]; [reflexivity|]. simpl. now rewrite Hr.
  - simpl in Hd. apply andb_true_iff in Hd as [Hc Hd].
    rewrite Hc, (IH Hd). reflexivity.
Qed.

(** X20.  [fn_match] accepts exactly the names that start with [recs-],
    a nonempty run of digits and [.parquet], whatever follows, and
    returns the digits as they stand. *)
Theorem fn_match_iff (name d : string) :
  fn_match name = Some d <->
  d <> "" /\ all_digits d = true /\
  exists rest, name = "recs-" ++ d ++ ".parquet" ++ rest.
Proof.
  unfold fn_match. split.
  - destruct (prefix "recs-" name) eqn:Hpre; [|discriminate].
    apply prefix_split in Hpre as [t ->].
    change 5%nat with (String.length "recs-"). rewrite substring_drop.
    destruct (span_digits t) as [d' r] eqn:Es.
    destruct (span_digits_spec t d' r Es) as [-> [Hd _]].
    destruct (d' =? "") eqn:Ed; [discriminate|].
    destruct (prefix ".parquet" r) eqn:Hr; [|discriminate].
    intros H. injection H as <-.
    apply prefix_split in Hr as [rest ->].
    split; [|split; [exact Hd|exists rest; reflexivity]].
    intros ->. discriminate.
  - intros [Hne [Hd [rest ->]]].
    rewrite (prefix_app "recs-").
    change 5%nat with (String.length "recs-"). rewrite substring_drop.
    rewrite (span_digits_app d (".parquet" ++ rest) Hd) by reflexivity.
    destruct (d =? "") eqn:Ed; [apply String.eqb_eq in Ed; congruence|].
    now rewrite (prefix_app ".parquet").
Qed.

(** ** Dictionaries *)

Lemma dict_snoc {V : Type} (ps : list (string * V)) (k : string) (v : V) :
  dict (ps ++ [(k, v)]) = dict_set k v (dict ps).
Proof. unfold dict. now rewrite fold_left_app. Qed.

Lemma dict_set_keys {V : Type} (k : string) (v : V) (d : list (string * V))
    (x : string) :
  In x (map fst (dict_set k v d)) <-> x = k \/ In x (map fst d).
Proof.
  induction d as [|[k' v'] d IH]; simpl.
  - intuition.
  - destruct (k =? k') eqn:E; simpl.
    + apply String.eqb_eq in E. subst. intuition.
    + rewrite IH. intuition.
Qed.

Lemma dict_set_NoDup {V : Type} (k : string) (v : V) (d : list (string * V)) :
  NoDup (map fst d) -> NoDup (map fst (dict_set k v d)).
Proof.
  induction d as [|[k' v'] d IH]; simpl; intros Hnd.
  - repeat constructor. intros [].
  - inversion Hnd as [|? ? Hnin Hnd']; subst.
    destruct (k =? k') eqn:E; simpl.
    + now constructor.
    + constructor; [|now apply IH].
      rewrite dict_set_keys. intros [->|Hin]; [|contradiction].
      now rewrite String.eqb_refl in E.
Qed.

Lemma dict_set_In {V : Type} (k : string) (v : V) (d : list (string * V))
    (k' : string) (v' : V) :
  NoDup (map fst d) ->
  In (k', v') (dict_set k v d) <->
  (k' = k /\ v' = v) \/ (k' <> k /\ In (k', v') d).
Proof.
  induction d as [|[k0 v0] d IH]; simpl; intros Hnd.
  - split.
    + intros [E|[]]. injection E as <- <-. auto.
    + intros [[-> ->]|[_ []]]. now left.
  - inversion Hnd as [|? ? Hnin Hnd']; subst.
    destruct (k =? k0) eqn:E; simpl.
    + apply String.eqb_eq in E. subst k0. split.
      * intros [E|Hin]; [injection E as <- <-; auto|].
        right. split; [|now right]. intros ->. apply Hnin.
        now apply (in_map fst) in Hin.
      * intros [[-> ->]|[Hne [E|Hin]]]; [now left| |now right].
        injection E as <- _. congruence.
    + apply String.eqb_neq in E. rewrite (IH Hnd'). split.
      * intros [E'|[[-> ->]|[Hne Hin]]]; auto.
        injection E' as <- <-. right. split; [congruence|now left].
      * intros [[-> ->]|[Hne [E'|Hin]]]; auto.
Qed.

Lemma dict_nonempty {V : Type} (ps : list (string * V)) :
  ps <> [] -> dict ps <> [].
Proof.
  destruct ps as [|p ps] using rev_ind; [congruence|]. intros _.
  destruct p as [k v]. rewrite dict_snoc.
  destruct (dict ps) as [|[k' v'] d]; simpl; [discriminate|].
  destruct (k =? k'); discriminate.
Qed.

(** X21.  [dict] keeps one entry per key, with the value of the last
    pair that has the key. *)
Theorem dict_last_wins {V : Type} (ps : list (string * V)) :
  NoDup (map fst (dict ps)) /\
  forall k v,
    In (k, v) (dict ps) <->
    find (fun kv => (fst kv =? k)%string) (rev ps) = Some (k, v).
Proof.
  induction ps as [|[k0 v0] ps [IHnd IHin]] using rev_ind.
  - split; [constructor|]. intros k v. simpl. split; [intros []|discriminate].
  - rewrite dict_snoc. split; [now apply dict_set_NoDup|].
    intros k v. rewrite (dict_set_In k0 v0 (dict ps) k v IHnd).
    rewrite rev_app_distr. simpl. rewrite IHin.
    destruct (k0 =? k) eqn:E.
    + apply String.eqb_eq in E. subst k0. split.
      * intros [[_ ->]|[Hne _]]; [reflexivity|congruence].
      * intros H. injection H as <-. now left.
    + apply String.eqb_neq in E. split.
      * intros [[-> _]|[_ H]]; [congruence|exact H].
      * intros H. right. split; [congruence|exact H].
Qed.

(** ** The aggregator *)

Section Props.
Variables table scores : Type.
Variable glob : string -> list string.
Variable read_parquet : string -> exn + table.
Variable rla_compute : table -> table -> exn + scores.
Variable pd_concat : list (string * scores) -> scores.
Variable show_scores : scores -> string.
Variable surfaced : list exn -> exn.

#[local] Abbreviation run a :=
  (main glob read_parquet rla_compute pd_concat show_scores surfaced a tt).
#[local] Abbreviation task a := (eval_run read_parquet rla_compute (DATA a)).
#[local] Abbreviation scanning a :=
  (Log (scores := scores) INFO "scanning %d run files for %s-%s"
     [str_of_int (Z.of_nat (length (run_files glob a))); DATA a; ALGO a]).

(** X22.  A run file whose name the pattern does not match stops
    [main] at the parallel step: only the scanning line is logged,
    nothing is written, and the run ends with an exception. *)
Theorem malformed_name_is_fatal (a : args) (nm : string) :
  In nm (glob (path_join "runs" (DATA a ++ "-" ++ ALGO a))) ->
  fn_match nm = None ->
  events (run a) = [scanning a] /\ exists e, outcome (run a) = inl e.
Proof.
  intros Hin Hnm.
  assert (Hfail : failures (map (task a) (run_files glob a)) <> []).
  { apply (failures_of_failed _ AttributeError).
    apply in_map_iff.
    exists (mk_run_file (path_join "runs" (DATA a ++ "-" ++ ALGO a)) nm).
    split.
    - unfold eval_run. cbn [name]. now rewrite Hnm.
    - unfold run_files. now apply in_map. }
  unfold run_files in *.
  unfold main, bind, log, emit, parallel_loop. simpl.
  match goal with
  | |- context [failures ?x] => destruct (failures x) as [|e1 es] eqn:E
  end.
  - exfalso. exact (Hfail E).
  - simpl. split; [reflexivity|eexists; reflexivity].
Qed.

(** X23.  With no run file, [main] logs the scan and the compile line
    and ends with [ValueError], raised by the concatenation of nothing;
    no artifact is written. *)
Theorem no_run_files_raises (a : args) :
  glob (path_join "runs" (DATA a ++ "-" ++ ALGO a)) = [] ->
  run a
  = ([scanning a; Log INFO "finished, compiling" []], inl ValueError, tt).
Proof.
  intros Hglob. unfold run_files.
  unfold main, bind, log, emit, parallel_loop, concat. cbv zeta.
  rewrite Hglob. reflexivity.
Qed.

(** X24.  When every task succeeds and there is at least one run file,
    [main] ends normally after five events, the last of which writes,
    to [-o] if given and not empty and to
    [runs/<data>-<algo>-scores.parquet] otherwise, the concatenation of
    the dictionary built from the tasks' results in the order of the
    run files. *)
Theorem success_writes_once (a : args) (results : list (string * scores)) :
  run_files glob a <> [] ->
  map (task a) (run_files glob a) = map inr results ->
  run a
  = ([scanning a;
      Log INFO "finished, compiling" [];
      Log INFO "scores:\n%s" [show_scores (pd_concat (dict results))];
      Log INFO "saving to %s" [outf_of a];
      ToParquet (outf_of a) (pd_concat (dict results))],
     inr tt, tt).
Proof.
  intros Hne Hall.
  assert (Hok : failures (map (@inr exn _) results) = []).
  { clear. induction results as [|r rs IH]; [reflexivity|exact IH]. }
  assert (Hs : successes (map (@inr exn _) results) = results).
  { clear. induction results as [|r rs IH]; [reflexivity|].
    simpl. now rewrite IH. }
  assert (Hres : results <> []).
  { intros ->. apply Hne. now apply map_eq_nil in Hall. }
  pose proof (dict_nonempty results Hres) as Hdict.
  unfold run_files in *.
  unfold main, bind, log, emit, parallel_loop, concat, outf_of. cbv zeta.
  rewrite Hall, Hok, Hs. unfold ret, raise. cbv beta iota.
  destruct (dict results) as [|kv kvs] eqn:E; [congruence|].
  reflexivity.
Qed.

End Props.

Lemma malformed_name_is_fatal_witness :
  events (main ComputeMetricsExample.glob_stray
            ComputeMetricsExample.read_parquet
            ComputeMetricsExample.rla_compute ComputeMetricsExample.pd_concat
            (fun s => s) ComputeMetricsExample.surfaced
            (mk_args "ml" "knn" None) tt)
  = [Log INFO "scanning %d run files for %s-%s" ["2"; "ml"; "knn"]] /\
  exists e,
    outcome (main ComputeMetricsExample.glob_stray
               ComputeMetricsExample.read_parquet
               ComputeMetricsExample.rla_compute
               ComputeMetricsExample.pd_concat
               (fun s => s) ComputeMetricsExample.surfaced
               (mk_args "ml" "knn" None) tt) = inl e.
Proof.
  apply (malformed_name_is_fatal string string
           ComputeMetricsExample.glob_stray
           ComputeMetricsExample.read_parquet
           ComputeMetricsExample.rla_compute ComputeMetricsExample.pd_concat
           (fun s => s) ComputeMetricsExample.surfaced
           (mk_args "ml" "knn" None) "recs-final.parquet").
  - simpl. right. left. reflexivity.
  - reflexivity.
Defined.

Lemma no_run_files_raises_witness :
  main ComputeMetricsExample.glob_none ComputeMetricsExample.read_parquet
    ComputeMetricsExample.rla_compute ComputeMetricsExample.pd_concat
    (fun s => s) ComputeMetricsExample.surfaced (mk_args "ml" "knn" None) tt
  = ([Log INFO "scanning %d run files for %s-%s" ["0"; "ml"; "knn"];
      Log INFO "finished, compiling" []],
     inl ValueError, tt).
Proof.
  apply (no_run_files_raises string string ComputeMetricsExample.glob_none
           ComputeMetricsExample.read_parquet
           ComputeMetricsExample.rla_compute ComputeMetricsExample.pd_concat
           (fun s => s) ComputeMetricsExample.surfaced
           (mk_args "ml" "knn" None)).
  reflexivity.
Defined.

Lemma success_writes_once_witness :
  outcome (ComputeMetricsExample.run (mk_args "ml" "knn" (Some "out.parquet")))
  = inr tt /\
  written (events (ComputeMetricsExample.run
                     (mk_args "ml" "knn" (Some "out.parquet"))))
  = ["out.parquet"].
Proof.
  unfold ComputeMetricsExample.run.
  rewrite (success_writes_once string string ComputeMetricsExample.glob
             ComputeMetricsExample.read_parquet
             ComputeMetricsExample.rla_compute ComputeMetricsExample.pd_concat
             (fun s => s) ComputeMetricsExample.surfaced
             (mk_args "ml" "knn" (Some "out.parquet"))
             [("1", "runs/ml-knn/recs-1.parquet vs data-split/ml/test-1.parquet");
              ("2", "runs/ml-knn/recs-2.parquet vs data-split/ml/test-2.parquet");
              ("3", "runs/ml-knn/recs-3.parquet vs data-split/ml/test-3.parquet")]).
  - split; reflexivity.
  - discriminate.
  - reflexivity.
Defined.

End ComputeMetricsMore.
